(** * drip-table: the generic render region (toolbar) of a table

    A shallow embedding of
    [packages/drip-table/src/components/generic-render/index.tsx]:
    the element variants, the rendered tree of [GenericRender], the state
    hooks of the component and the event handlers it installs, followed by
    the properties of the display-column selector, the slot resolution, the
    search element and the table information handed to callbacks. *)

From stdpp Require Import base option list gmap strings sorting.
From Stdlib Require Import ZArith Ascii String.

Local Open Scope Z_scope.
Local Open Scope string_scope.
Local Open Scope list_scope.

(** ** JavaScript values and built-ins used by the component *)

Module Js.

(** [number | string], the type of a search key. Numbers are the integers
    the schema documents carry. *)
Inductive Key :=
  | KNum (n : Z)
  | KStr (s : string).

#[global] Instance Key_eq_dec : EqDecision Key.
Proof. solve_decision. Defined.

(** Truthiness of an optional key: [undefined], [0] and [''] are falsy. *)
Definition truthy (v : option Key) : bool :=
  match v with
  | None => false
  | Some (KNum n) => negb (Z.eqb n 0)
  | Some (KStr s) => negb (bool_decide (s = ""))
  end.

(** [a || b] on optional keys. *)
Definition or_else (a b : option Key) : option Key :=
  if truthy a then a else b.

(** [Array.prototype.find]. *)
Fixpoint find {A} (p : A → bool) (l : list A) : option A :=
  match l with
  | [] => None
  | x :: l' => if p x then Some x else find p l'
  end.

(** [Array.prototype.includes] on strings. *)
Definition includes (l : list string) (k : string) : bool :=
  bool_decide (k ∈ l).

(** [arr.filter(k => k !== key)]. *)
Definition without (key : string) (l : list string) : list string :=
  filter (λ k, k ≠ key) l.

(** [classnames(a, b, ...)]: the truthy arguments joined by one space. *)
Fixpoint classnames (args : list (option string)) : string :=
  match args with
  | [] => ""
  | None :: rest => classnames rest
  | Some s :: rest =>
      if bool_decide (s = "") then classnames rest
      else match classnames rest with
           | "" => s
           | r => s +:+ " " +:+ r
           end
  end.

(** White space and line terminators of ECMAScript, as UTF-8 byte
    sequences: TAB, LF, VT, FF, CR, SP, NBSP, U+1680, U+2000..U+200A,
    U+2028, U+2029, U+202F, U+205F, U+3000, U+FEFF. *)
Definition white_space : list (list nat) :=
  [ [9]; [10]; [11]; [12]; [13]; [32]; [194; 160]; [225; 154; 128];
    [226; 128; 128]; [226; 128; 129]; [226; 128; 130]; [226; 128; 131];
    [226; 128; 132]; [226; 128; 133]; [226; 128; 134]; [226; 128; 135];
    [226; 128; 136]; [226; 128; 137]; [226; 128; 138]; [226; 128; 168];
    [226; 128; 169]; [226; 128; 175]; [226; 129; 159]; [227; 128; 128];
    [239; 187; 191] ]%nat.

Fixpoint strip_prefix (p bs : list nat) : option (list nat) :=
  match p, bs with
  | [], _ => Some bs
  | _ :: _, [] => None
  | a :: p', b :: bs' => if Nat.eqb a b then strip_prefix p' bs' else None
  end.

Fixpoint strip_any (ps : list (list nat)) (bs : list nat) : option (list nat) :=
  match ps with
  | [] => None
  | p :: ps' =>
      match strip_prefix p bs with
      | Some r => Some r
      | None => strip_any ps' bs
      end
  end.

Fixpoint trim_start_bytes (fuel : nat) (ps : list (list nat)) (bs : list nat) : list nat :=
  match fuel with
  | O => bs
  | S fuel' =>
      match strip_any ps bs with
      | Some r => trim_start_bytes fuel' ps r
      | None => bs
      end
  end.

Definition bytes_of (s : string) : list nat :=
  nat_of_ascii <$> list_ascii_of_string s.

Definition of_bytes (bs : list nat) : string :=
  string_of_list_ascii (ascii_of_nat <$> bs).

(** [String.prototype.trim]. *)
Definition trim (s : string) : string :=
  let bs := bytes_of s in
  let front := trim_start_bytes (List.length bs) white_space bs in
  let back :=
    trim_start_bytes (List.length front) (reverse <$> white_space) (reverse front) in
  of_bytes (reverse back).

(** One property assignment [o[k] = v] on an object kept as its list of
    entries: an existing property keeps its place and takes the value. *)
Fixpoint set_property {V} (k : string) (v : V) (o : list (string * V)) : list (string * V) :=
  match o with
  | [] => [(k, v)]
  | (k', v') :: o' =>
      if bool_decide (k = k') then (k, v) :: o' else (k', v') :: set_property k v o'
  end.

(** Object spread [{ ...base, ...over }]. *)
Definition spread {V} (base over : list (string * V)) : list (string * V) :=
  foldl (λ o kv, set_property kv.1 kv.2 o) base over.

(** Property read [o[k]] on an object kept as its list of entries. *)
Fixpoint get {V} (k : string) (o : list (string * V)) : option V :=
  match o with
  | [] => None
  | (k', v) :: o' => if bool_decide (k = k') then Some v else get k o'
  end.

End Js.

(** ** Data model *)

(** [React.CSSProperties]: property name and value, in declaration order. *)
Definition CSSProperties := list (string * string).

Inductive Span :=
  | SpanNumber (n : Z)
  | SpanString (s : string).

Inductive Align :=
  | FlexStart | Center | FlexEnd | SpaceBetween | SpaceAround.

Record GenericRenderElementBasic := {
  className : option string;
  style : option CSSProperties;
  span : option Span;
  align : option Align;
  visible : option bool;
}.

Inductive ButtonSize := Large | Middle | Small.

Record SearchKeyOption := {
  label : string;
  value : Js.Key;
}.

Record GenericRenderSearchElement := {
  wrapperClassName : option string;
  wrapperStyle : option CSSProperties;
  placeholder : option string;
  allowClear : option bool;
  searchButtonText : option string;
  searchButtonSize : option ButtonSize;
  searchKeys : option (list SearchKeyOption);
  searchKeyDefaultValue : option Js.Key;
}.

(** A value of the free-form properties bag of a slot element. *)
Inductive PropValue :=
  | PString (s : string)
  | PNumber (n : Z)
  | PBoolean (b : bool)
  | PNull.

Record GenericRenderInsertButtonElement := {
  insertButtonClassName : option string;
  insertButtonStyle : option CSSProperties;
  insertButtonText : option string;
  showIcon : option bool;
}.

Record GenericRenderDisplayColumnSelectorElement := {
  selectorButtonText : option string;
  selectorButtonType : option string;
}.

(** The [type] tag of an element with the payload of its variant. *)
Inductive ElementVariant :=
  | Spacer
  | Text (text : string)
  | Html (html : string)
  | Search (config : GenericRenderSearchElement)
  | Slot (slot : string) (props : option (gmap string PropValue))
  | InsertButton (config : GenericRenderInsertButtonElement)
  | DisplayColumnSelector (config : GenericRenderDisplayColumnSelectorElement).

Record DripTableGenericRenderElement := {
  basic : GenericRenderElementBasic;
  variant : ElementVariant;
}.

(** A column of the schema, with the attributes the toolbar reads. *)
Record Column := {
  key : string;
  title : string;
  hidable : option bool;
}.

Record Schema := {
  id : option Js.Key;
  columns : list Column;
}.

(** The data source is held by reference: [tableInfo] keeps the reference
    and the memo compares references. *)
Inductive DataSourceRef := DataSourceAt (address : nat).

(** What a property read on the slot registry can return: a function the
    consumer registered, or a member every plain object inherits from
    [Object.prototype]. *)
Inductive SlotComponent :=
  | SlotNamed (name : string)
  | ObjectPrototypeMember (name : string).

Inductive Driver := DriverNamed (name : string).

#[global] Instance DataSourceRef_eq_dec : EqDecision DataSourceRef.
Proof. solve_decision. Defined.

(** The properties of the table the toolbar reads. A callback property is
    optional: the flag says whether the consumer supplied it. *)
Record DripTableProps := {
  driver : Driver;
  schema : Schema;
  dataSource : DataSourceRef;
  slots : option (gmap string SlotComponent);
  onSearch : bool;
  onInsertButtonClick : bool;
  onDisplayColumnKeysChange : bool;
}.

Record SearchParams := {
  sp_searchKey : option Js.Key;
  sp_searchStr : string;
}.

(** Modelled from the spec: the table state [IDripTableContext] is declared
    outside this file. Per the data model it holds the display-column key
    set, the current page, the selected row keys, the active filters and the
    active search parameters. *)
Record IDripTableContext := {
  displayColumnKeys : list string;
  currentPage : Z;
  selectedRowKeys : list Js.Key;
  filters : list (string * list Js.Key);
  searchParams : option SearchParams;
}.

(** The partial state a transition returns. *)
Record PartialState := {
  set_displayColumnKeys : option (list string);
  set_currentPage : option Z;
  set_selectedRowKeys : option (list Js.Key);
  set_filters : option (list (string * list Js.Key));
  set_searchParams : option (option SearchParams);
}.

Record GenericRenderProps := {
  gr_style : option CSSProperties;
  schemas : list DripTableGenericRenderElement;
  tableProps : DripTableProps;
}.

(** [DripTableTableInformation]. *)
Record DripTableTableInformation := {
  info_id : option Js.Key;
  info_dataSource : DataSourceRef;
}.

(** The interaction event handed to the insert callback. *)
Inductive ClickEvent := ClickAt (x y : Z).

(** A call of one of the consumer's callbacks, with its arguments. *)
Inductive Callback :=
  | CallOnSearch (params : SearchParams) (info : DripTableTableInformation)
  | CallOnInsertButtonClick (e : ClickEvent) (info : DripTableTableInformation)
  | CallOnDisplayColumnKeysChange (keys : list string) (info : DripTableTableInformation).

(** ** The rendered tree *)

Inductive EnterButton :=
  | EnterButtonText (s : string)
  | EnterButtonTrue.

Record SelectOptionView := {
  option_key : nat;
  option_value : Js.Key;
  option_label : string;
}.

Record SelectView := {
  select_defaultValue : option Js.Key;
  select_className : string;
  select_value : option Js.Key;
  select_options : list SelectOptionView;
}.

Record InputSearchView := {
  input_allowClear : option bool;
  input_placeholder : option string;
  input_enterButton : EnterButton;
  input_size : option ButtonSize;
  input_value : string;
}.

Record SearchView := {
  search_style : option CSSProperties;
  search_className : string;
  search_select : option SelectView;
  search_input : InputSearchView;
}.

Record SlotView := {
  slot_component : SlotComponent;
  slot_props : gmap string PropValue;
  slot_className : string;
  slot_slotType : string;
  slot_driver : Driver;
  slot_schema : Schema;
  slot_dataSource : DataSourceRef;
}.

Record InsertButtonView := {
  button_className : string;
  button_type : string;
  button_icon : bool;
  button_style : option CSSProperties;
  button_text : option string;
}.

Record MenuItemView := {
  item_key : string;
  item_opacity : Z;
  item_title : string;
}.

Record DropdownView := {
  dropdown_className : string;
  dropdown_trigger : list string;
  dropdown_overlay : list MenuItemView;
  dropdown_visible : bool;
  dropdown_buttonType : option string;
  dropdown_buttonText : string;
}.

Inductive Content :=
  | H3 (cls text : string)
  | RichText (cls html : string)
  | SearchBox (v : SearchView)
  | SlotElement (v : SlotView)
  | SlotError (cls message : string)
  | InsertButtonElement (v : InsertButtonView)
  | ColumnSelector (v : DropdownView).

Record ColView := {
  col_key : nat;
  col_className : option string;
  col_style : list (string * option string);
  col_span : option Z;
  col_content : option Content;
}.

Record ToolbarView := {
  toolbar_className : string;
  toolbar_style : option CSSProperties;
  toolbar_cols : list ColView;
}.

(** ** State of the component *)

(** The values held by the hooks of [GenericRender]: three [useState]
    cells and the [useMemo] cell of [tableInfo] with its dependencies. *)
Record Hooks := {
  displayColumnVisible : bool;
  searchStr : string;
  searchKey : option Js.Key;
  tableInfoMemo : (option Js.Key * DataSourceRef) * DripTableTableInformation;
}.

(** The table state owned by the table and the hooks owned by the toolbar. *)
Record World := {
  tableState : IDripTableContext;
  hooks : Hooks;
}.

(** [React.useMemo]: the stored value is kept while the dependencies are
    the same, and the factory runs again when one of them differs. *)
Definition useMemo {D A} `{EqDecision D}
    (factory : unit → A) (deps : D) (cell : option (D * A)) : D * A :=
  match cell with
  | Some (d, a) => if decide (d = deps) then (d, a) else (deps, factory tt)
  | None => (deps, factory tt)
  end.

(** The factory and the dependency list of [tableInfo]. *)
Definition tableInfoFactory (tp : DripTableProps) (_ : unit) : DripTableTableInformation :=
  {| info_id := id (schema tp); info_dataSource := dataSource tp |}.

Definition tableInfoDeps (tp : DripTableProps) : option Js.Key * DataSourceRef :=
  (id (schema tp), dataSource tp).

(** The initial value of [searchKey]:
    [schemas.map(s => s.type === 'search' ? s.searchKeyDefaultValue : '').find(s => s)]. *)
Definition initialSearchKey (elements : list DripTableGenericRenderElement) : option Js.Key :=
  mjoin (Js.find Js.truthy
    ((λ s, match variant s with
           | Search config => searchKeyDefaultValue config
           | _ => Some (Js.KStr "")
           end) <$> elements)).

(** The hooks at the first render. *)
Definition mount (p : GenericRenderProps) : Hooks :=
  {| displayColumnVisible := false;
     searchStr := "";
     searchKey := initialSearchKey (schemas p);
     tableInfoMemo :=
       useMemo (tableInfoFactory (tableProps p)) (tableInfoDeps (tableProps p)) None |}.

(** The hooks at a later render: the state cells keep their values, the
    memo cell is re-evaluated against the new properties. *)
Definition rerender (p : GenericRenderProps) (h : Hooks) : Hooks :=
  {| displayColumnVisible := displayColumnVisible h;
     searchStr := searchStr h;
     searchKey := searchKey h;
     tableInfoMemo :=
       useMemo (tableInfoFactory (tableProps p)) (tableInfoDeps (tableProps p))
         (Some (tableInfoMemo h)) |}.

Definition tableInfo (h : Hooks) : DripTableTableInformation :=
  snd (tableInfoMemo h).

(** ** Rendering *)

Definition styles (name : string) : string := name.

Definition hidableColumns (s : Schema) : list Column :=
  filter (λ c, hidable c = Some true) (columns s).

(** The property names every plain object answers to through its
    prototype: the methods of [Object.prototype] and the accessor
    [__proto__]. Each of them reads as a truthy value. *)
Definition objectPrototypeMembers : list string :=
  [ "constructor"; "hasOwnProperty"; "isPrototypeOf"; "propertyIsEnumerable";
    "toLocaleString"; "toString"; "valueOf"; "__defineGetter__"; "__defineSetter__";
    "__lookupGetter__"; "__lookupSetter__"; "__proto__" ].

(** The property read [slots[name]] on the registry, a plain object: an own
    property first, then the prototype. *)
Definition getSlot (registry : gmap string SlotComponent) (name : string)
    : option SlotComponent :=
  match registry !! name with
  | Some f => Some f
  | None =>
      if bool_decide (name ∈ objectPrototypeMembers)
      then Some (ObjectPrototypeMember name)
      else None
  end.

(** [tableProps.slots?.[config.slot] || tableProps.slots?.default]. *)
Definition resolveSlot (tp : DripTableProps) (slot : string) : option SlotComponent :=
  match slots tp ≫= (λ registry, getSlot registry slot) with
  | Some f => Some f
  | None => slots tp ≫= (λ registry, getSlot registry "default")
  end.

Definition slotErrorMessage (slot : string) : string :=
  "自定义插槽组件渲染函数 tableProps.slots['" +:+ slot +:+ "'] 不存在".

Definition renderColumnContent (p : GenericRenderProps) (ts : IDripTableContext)
    (h : Hooks) (config : DripTableGenericRenderElement) : option Content :=
  let tp := tableProps p in
  match variant config with
  | Spacer => None
  | Text text => Some (H3 (styles "generic-render-text-element") text)
  | Html html => Some (RichText (styles "generic-render-html-element") html)
  | Search c =>
      Some (SearchBox
        {| search_style := wrapperStyle c;
           search_className :=
             Js.classnames [Some (styles "generic-render-search-element"); wrapperClassName c];
           search_select :=
             (λ keys,
               {| select_defaultValue := searchKeyDefaultValue c;
                  select_className := styles "generic-render-search-element__select";
                  select_value := searchKey h;
                  select_options :=
                    imap (λ i item,
                      {| option_key := i; option_value := value item;
                         option_label := label item |}) keys |})
             <$> searchKeys c;
           search_input :=
             {| input_allowClear := allowClear c;
                input_placeholder := placeholder c;
                input_enterButton :=
                  match searchButtonText c with
                  | Some t => if bool_decide (t = "") then EnterButtonTrue else EnterButtonText t
                  | None => EnterButtonTrue
                  end;
                input_size := searchButtonSize c;
                input_value := searchStr h |} |})
  | Slot slot props =>
      match resolveSlot tp slot with
      | Some f =>
          Some (SlotElement
            {| slot_component := f;
               slot_props := default ∅ props;
               slot_className :=
                 Js.classnames
                   [Some (styles "generic-render-slot-element");
                    match props ≫= (λ m, m !! "className") with
                    | Some (PString s) => Some s
                    | _ => Some ""
                    end];
               slot_slotType := slot;
               slot_driver := driver tp;
               slot_schema := schema tp;
               slot_dataSource := dataSource tp |})
      | None =>
          Some (SlotError (styles "generic-render-slot-element__error") (slotErrorMessage slot))
      end
  | InsertButton c =>
      Some (InsertButtonElement
        {| button_className :=
             Js.classnames
               [Some (styles "generic-render-insert-button-element"); insertButtonClassName c];
           button_type := "primary";
           button_icon := bool_decide (showIcon c = Some true);
           button_style := insertButtonStyle c;
           button_text := insertButtonText c |})
  | DisplayColumnSelector c =>
      let hidable := hidableColumns (schema tp) in
      if bool_decide (List.length hidable = 0%nat) then None
      else
        Some (ColumnSelector
          {| dropdown_className := styles "generic-render-display-column-selector-element";
             dropdown_trigger := ["click"];
             dropdown_overlay :=
               (λ column,
                 {| item_key := key column;
                    item_opacity :=
                      if Js.includes (displayColumnKeys ts) (key column) then 1 else 0;
                    item_title := title column |}) <$> hidable;
             dropdown_visible := displayColumnVisible h;
             dropdown_buttonType := selectorButtonType c;
             dropdown_buttonText :=
               match selectorButtonText c with
               | Some t => if bool_decide (t = "") then "展示列" else t
               | None => "展示列"
               end |})
  end.

Definition alignValue (a : Align) : string :=
  match a with
  | FlexStart => "flex-start"
  | Center => "center"
  | FlexEnd => "flex-end"
  | SpaceBetween => "space-between"
  | SpaceAround => "space-around"
  end.

(** The [style] of the [Col] that wraps the element at [index]. The object
    literal lists six properties, [width] and [flex] possibly [undefined]
    ([None]), and the [style] of the element is spread over them. *)
Definition colStyle (p : GenericRenderProps) (index : nat)
    (item : DripTableGenericRenderElement) : list (string * option string) :=
  let b := basic item in
  Js.spread
    [ ("width",
       match span b with
       | Some (SpanString s) => if bool_decide (s ≠ "flex-auto") then Some s else None
       | _ => None
       end);
      ("display", Some "flex");
      ("flex",
       match span b with
       | Some (SpanString s) => if bool_decide (s = "flex-auto") then Some "1 1 auto" else None
       | _ => None
       end);
      ("justifyContent", Some (from_option alignValue "center" (align b)));
      ("paddingLeft", Some (if bool_decide (index = 0%nat) then "0" else "3px"));
      ("paddingRight",
       Some (if bool_decide (Z.of_nat index = Z.of_nat (List.length (schemas p)) - 1)
             then "3px" else "0")) ]
    ((λ kv, (kv.1, Some kv.2)) <$> default [] (style b)).

Definition renderCol (p : GenericRenderProps) (ts : IDripTableContext) (h : Hooks)
    (index : nat) (item : DripTableGenericRenderElement) : ColView :=
  {| col_key := index;
     col_className := className (basic item);
     col_style := colStyle p index item;
     col_span :=
       match span (basic item) with
       | Some (SpanNumber n) => Some n
       | _ => None
       end;
     col_content :=
       if bool_decide (visible (basic item) ≠ Some false)
       then renderColumnContent p ts h item
       else None |}.

(** The component: [null] for an empty element list, otherwise one [Col]
    per element inside a [Row]. *)
Definition GenericRender (p : GenericRenderProps) (ts : IDripTableContext)
    (h : Hooks) : option ToolbarView :=
  if bool_decide (0 < List.length (schemas p))%nat then
    Some {| toolbar_className := styles "generic-render";
            toolbar_style := gr_style p;
            toolbar_cols := imap (renderCol p ts h) (schemas p) |}
  else None.

(** ** State transitions and event handlers *)

(** Modelled from the spec: [setTableState] is declared outside this file.
    It is the single mutation entry point of the table state: it takes a
    transition from the state to a partial state and applies it against the
    latest state, the fields the partial state leaves out being kept. The
    calls the transition makes while it runs are collected beside it. *)
Definition mergeState (st : IDripTableContext) (part : PartialState) : IDripTableContext :=
  {| displayColumnKeys := default (displayColumnKeys st) (set_displayColumnKeys part);
     currentPage := default (currentPage st) (set_currentPage part);
     selectedRowKeys := default (selectedRowKeys st) (set_selectedRowKeys part);
     filters := default (filters st) (set_filters part);
     searchParams := default (searchParams st) (set_searchParams part) |}.

Definition setTableState (transition : IDripTableContext → PartialState * list Callback)
    (st : IDripTableContext) : IDripTableContext * list Callback :=
  let '(part, calls) := transition st in (mergeState st part, calls).

(** The key list the menu click computes:
    [state.displayColumnKeys.filter(k => k !== e.key) || []], then
    [push(e.key)] when the state did not include the key. The filter always
    yields an array, so the [|| []] never applies. *)
Definition toggledColumnKeys (e_key : string) (keys : list string) : list string :=
  let displayColumnKeys := Js.without e_key keys in
  if negb (Js.includes keys e_key) then (displayColumnKeys ++ [e_key])%list
  else displayColumnKeys.

(** The transition passed to [setTableState] by the [onClick] of the menu
    of the display-column selector. *)
Definition menuOnClick (tp : DripTableProps) (info : DripTableTableInformation)
    (e_key : string) (state : IDripTableContext) : PartialState * list Callback :=
  let displayColumnKeys := toggledColumnKeys e_key (displayColumnKeys state) in
  ({| set_displayColumnKeys := Some displayColumnKeys;
      set_currentPage := None;
      set_selectedRowKeys := None;
      set_filters := None;
      set_searchParams := None |},
   if onDisplayColumnKeysChange tp
   then [CallOnDisplayColumnKeysChange displayColumnKeys info]
   else []).

Definition setDisplayColumnVisible (v : bool) (h : Hooks) : Hooks :=
  {| displayColumnVisible := v; searchStr := searchStr h;
     searchKey := searchKey h; tableInfoMemo := tableInfoMemo h |}.

Definition setSearchStr (s : string) (h : Hooks) : Hooks :=
  {| displayColumnVisible := displayColumnVisible h; searchStr := s;
     searchKey := searchKey h; tableInfoMemo := tableInfoMemo h |}.

Definition setSearchKey (k : option Js.Key) (h : Hooks) : Hooks :=
  {| displayColumnVisible := displayColumnVisible h; searchStr := searchStr h;
     searchKey := k; tableInfoMemo := tableInfoMemo h |}.

(** The events of the rendered tree, each with the index of the element of
    the toolbar whose handler it reaches. *)
Inductive Event :=
  | SelectChange (index : nat) (value : Js.Key)
  | InputChange (index : nat) (target_value : string)
  | InputSearch (index : nat) (value : string)
  | SlotSearch (index : nat) (searchParams : SearchParams)
  | InsertClick (index : nat) (e : ClickEvent)
  | MenuClick (index : nat) (e_key : string)
  | DropdownVisibleChange (index : nat) (v : bool).

(** The content rendered for the element at an index, if the element exists
    and is visible. *)
Definition contentAt (p : GenericRenderProps) (w : World) (index : nat) : option Content :=
  toolbar ← GenericRender p (tableState w) (hooks w);
  col ← toolbar_cols toolbar !! index;
  col_content col.

Definition withHooks (w : World) (h : Hooks) : World :=
  {| tableState := tableState w; hooks := h |}.

(** One event: [None] when the rendered tree has no such handler, otherwise
    the next state and the callbacks called, in order. *)
Definition handle (p : GenericRenderProps) (w : World) (ev : Event)
    : option (World * list Callback) :=
  let tp := tableProps p in
  let h := hooks w in
  match ev with
  | SelectChange index value =>
      match contentAt p w index with
      | Some (SearchBox v) =>
          match search_select v with
          | Some _ => Some (withHooks w (setSearchKey (Some value) h), [])
          | None => None
          end
      | _ => None
      end
  | InputChange index target_value =>
      match contentAt p w index with
      | Some (SearchBox _) => Some (withHooks w (setSearchStr (Js.trim target_value) h), [])
      | _ => None
      end
  | InputSearch index value =>
      match contentAt p w index with
      | Some (SearchBox _) =>
          Some (w,
                if onSearch tp
                then [CallOnSearch {| sp_searchKey := searchKey h; sp_searchStr := value |}
                        (tableInfo h)]
                else [])
      | _ => None
      end
  | SlotSearch index searchParams =>
      match contentAt p w index with
      | Some (SlotElement _) =>
          Some (w, if onSearch tp then [CallOnSearch searchParams (tableInfo h)] else [])
      | _ => None
      end
  | InsertClick index e =>
      match contentAt p w index with
      | Some (InsertButtonElement _) =>
          Some (w, if onInsertButtonClick tp then [CallOnInsertButtonClick e (tableInfo h)] else [])
      | _ => None
      end
  | MenuClick index e_key =>
      match contentAt p w index with
      | Some (ColumnSelector _) =>
          let '(st, calls) := setTableState (menuOnClick tp (tableInfo h) e_key) (tableState w) in
          Some ({| tableState := st; hooks := h |}, calls)
      | _ => None
      end
  | DropdownVisibleChange index v =>
      match contentAt p w index with
      | Some (ColumnSelector _) => Some (withHooks w (setDisplayColumnVisible v h), [])
      | _ => None
      end
  end.

(** The life of one mounted toolbar: the parent renders it again with new
    properties, or a handler of the rendered tree fires. After a handler
    has run the component renders again with the properties it has. *)
Inductive Step :=
  | Render (p : GenericRenderProps)
  | Fire (ev : Event).

Record Session := {
  current : GenericRenderProps;
  world : World;
}.

Definition start (p : GenericRenderProps) (ts : IDripTableContext) : Session :=
  {| current := p; world := {| tableState := ts; hooks := mount p |} |}.

Definition step (s : Session) (st : Step) : option (Session * list Callback) :=
  match st with
  | Render p' =>
      Some ({| current := p'; world := withHooks (world s) (rerender p' (hooks (world s))) |}, [])
  | Fire ev =>
      '(w, calls) ← handle (current s) (world s) ev;
      Some ({| current := current s;
               world := withHooks w (rerender (current s) (hooks w)) |}, calls)
  end.

Fixpoint run (s : Session) (steps : list Step) : option (Session * list Callback) :=
  match steps with
  | [] => Some (s, [])
  | st :: steps' =>
      '(s1, calls1) ← step s st;
      '(s2, calls2) ← run s1 steps';
      Some (s2, (calls1 ++ calls2)%list)
  end.

(** The memo cell holds the table information of the properties of the
    current render. *)
Definition memoCurrent (s : Session) : Prop :=
  tableInfoMemo (hooks (world s))
  = (tableInfoDeps (tableProps (current s)),
     tableInfoFactory (tableProps (current s)) tt).

(** The [searchKeyDefaultValue] an element contributes to the initial
    search key: its own for a search element, [''] for any other. *)
Definition defaultSearchKeyOf (s : DripTableGenericRenderElement) : option Js.Key :=
  match variant s with
  | Search config => searchKeyDefaultValue config
  | _ => Some (Js.KStr "")
  end.

(** The display-column keys after one click on the menu entry of a key. *)
Definition clickMenu (tp : DripTableProps) (info : DripTableTableInformation)
    (e_key : string) (st : IDripTableContext) : IDripTableContext :=
  fst (setTableState (menuOnClick tp info e_key) st).

(** The table information argument of a callback call. *)
Definition callbackInfo (c : Callback) : DripTableTableInformation :=
  match c with
  | CallOnSearch _ info => info
  | CallOnInsertButtonClick _ info => info
  | CallOnDisplayColumnKeysChange _ info => info
  end.

(** The existing column keys of a schema. *)
Definition columnKeys (s : Schema) : list string := key <$> columns s.

(** A composer that skipped invisible elements would emit one [Col] per
    visible element only. *)
Definition skipsInvisible (p : GenericRenderProps) (ts : IDripTableContext) (h : Hooks) : Prop :=
  ∀ toolbar, GenericRender p ts h = Some toolbar →
    List.length (toolbar_cols toolbar)
    = List.length (filter (λ item, visible (basic item) ≠ Some false) (schemas p)).

(** The index of the toolbar element an event is addressed to. *)
Definition eventIndex (ev : Event) : nat :=
  match ev with
  | SelectChange index _ | InputChange index _ | InputSearch index _
  | SlotSearch index _ | InsertClick index _ | MenuClick index _
  | DropdownVisibleChange index _ => index
  end.

(** The elements whose rendered content installs the handler of an event. *)
Definition installs (p : GenericRenderProps) (item : DripTableGenericRenderElement)
    (ev : Event) : Prop :=
  match ev, variant item with
  | SelectChange _ _, Search c => searchKeys c ≠ None
  | InputChange _ _, Search _ => True
  | InputSearch _ _, Search _ => True
  | SlotSearch _ _, Slot slot _ => resolveSlot (tableProps p) slot ≠ None
  | InsertClick _ _, InsertButton _ => True
  | MenuClick _ _, DisplayColumnSelector _ =>
      hidableColumns (schema (tableProps p)) ≠ []
  | DropdownVisibleChange _ _, DisplayColumnSelector _ =>
      hidableColumns (schema (tableProps p)) ≠ []
  | _, _ => False
  end.

(** The key lists handed to the display-column callback, in call order. *)
Definition displayNotifications (calls : list Callback) : list (list string) :=
  omap (λ c, match c with
             | CallOnDisplayColumnKeysChange keys _ => Some keys
             | _ => None
             end) calls.

(** The same table properties with no callback supplied. *)
Definition withoutCallbacks (p : GenericRenderProps) : GenericRenderProps :=
  {| gr_style := gr_style p;
     schemas := schemas p;
     tableProps :=
       {| driver := driver (tableProps p); schema := schema (tableProps p);
          dataSource := dataSource (tableProps p); slots := slots (tableProps p);
          onSearch := false; onInsertButtonClick := false;
          onDisplayColumnKeysChange := false |} |}.

(** The class attribute built from the class of the component and an
    optional custom class. *)
Definition withCustomClass (base : string) (custom : option string) : string :=
  match custom with
  | Some c => if bool_decide (c = "") then base else base +:+ " " +:+ c
  | None => base
  end.

(** ** Scenarios *)

Module Scenario.

Definition plain : GenericRenderElementBasic :=
  {| className := None; style := None; span := None; align := None; visible := None |}.

(** Scenario A: [mock_1] is hidable, [mock_2] is not. *)
Definition mock_1 : Column := {| key := "mock_1"; title := "商品名称"; hidable := Some true |}.
Definition mock_2 : Column := {| key := "mock_2"; title := "商品详情"; hidable := Some false |}.

Definition schemaA : Schema :=
  {| id := Some (Js.KStr "sample-table"); columns := [mock_1; mock_2] |}.

Definition tablePropsA : DripTableProps :=
  {| driver := DriverNamed "antd"; schema := schemaA; dataSource := DataSourceAt 1;
     slots := None; onSearch := true; onInsertButtonClick := true;
     onDisplayColumnKeysChange := true |}.

Definition selector : DripTableGenericRenderElement :=
  {| basic := plain;
     variant := DisplayColumnSelector
                  {| selectorButtonText := None; selectorButtonType := None |} |}.

Definition insertButton : DripTableGenericRenderElement :=
  {| basic := plain;
     variant := InsertButton
                  {| insertButtonClassName := None; insertButtonStyle := None;
                     insertButtonText := Some "add"; showIcon := Some true |} |}.

Definition propsA : GenericRenderProps :=
  {| gr_style := None; schemas := [selector; insertButton]; tableProps := tablePropsA |}.

Definition stateA : IDripTableContext :=
  {| displayColumnKeys := ["mock_1"; "mock_2"]; currentPage := 1;
     selectedRowKeys := []; filters := []; searchParams := None |}.

(** The state of scenario A once [mock_1] is hidden. *)
Definition stateHidden : IDripTableContext :=
  {| displayColumnKeys := ["mock_2"]; currentPage := 1;
     selectedRowKeys := []; filters := []; searchParams := None |}.

Definition infoA : DripTableTableInformation :=
  {| info_id := Some (Js.KStr "sample-table"); info_dataSource := DataSourceAt 1 |}.

Definition worldA : World := {| tableState := stateA; hooks := mount propsA |}.

(** Scenario B: a search element with two search keys and no default. *)
Definition searchWith (keys : option (list SearchKeyOption)) (dflt : option Js.Key)
    : DripTableGenericRenderElement :=
  {| basic := plain;
     variant := Search
                  {| wrapperClassName := None; wrapperStyle := None; placeholder := None;
                     allowClear := None; searchButtonText := None;
                     searchButtonSize := None; searchKeys := keys;
                     searchKeyDefaultValue := dflt |} |}.

Definition keysAB : list SearchKeyOption :=
  [ {| label := "A"; value := Js.KNum 1 |}; {| label := "B"; value := Js.KNum 2 |} ].

Definition propsB : GenericRenderProps :=
  {| gr_style := None; schemas := [searchWith (Some keysAB) None]; tableProps := tablePropsA |}.

Definition worldB : World := {| tableState := stateA; hooks := mount propsB |}.

(** Several search elements in one toolbar, with falsy and truthy defaults. *)
Definition propsSearches : GenericRenderProps :=
  {| gr_style := None;
     schemas := [ searchWith (Some keysAB) (Some (Js.KNum 0));
                  searchWith None (Some (Js.KStr ""));
                  {| basic := plain; variant := Text "orders" |};
                  searchWith (Some keysAB) (Some (Js.KNum 2));
                  searchWith (Some keysAB) (Some (Js.KNum 1)) ];
     tableProps := tablePropsA |}.

Definition propsFalsyDefaults : GenericRenderProps :=
  {| gr_style := None;
     schemas := [ searchWith (Some keysAB) (Some (Js.KNum 0));
                  searchWith (Some keysAB) (Some (Js.KStr "")) ];
     tableProps := tablePropsA |}.

(** A text element switched off. *)
Definition hiddenText : DripTableGenericRenderElement :=
  {| basic := {| className := Some "note"; style := None; span := Some (SpanNumber 6);
                 align := None; visible := Some false |};
     variant := Text "hidden" |}.

Definition propsHidden : GenericRenderProps :=
  {| gr_style := None; schemas := [hiddenText]; tableProps := tablePropsA |}.

Definition propsMixed : GenericRenderProps :=
  {| gr_style := None;
     schemas := [ {| basic := plain; variant := Text "first" |}; hiddenText;
                  {| basic := plain; variant := Html "<b>last</b>" |} ];
     tableProps := tablePropsA |}.

(** Slot registries. *)
Definition slotElement (name : string) : DripTableGenericRenderElement :=
  {| basic := plain; variant := Slot name None |}.

Definition withSlots (m : option (gmap string SlotComponent)) : GenericRenderProps :=
  {| gr_style := None; schemas := [slotElement "header-slot"];
     tableProps :=
       {| driver := DriverNamed "antd"; schema := schemaA; dataSource := DataSourceAt 1;
          slots := m; onSearch := true; onInsertButtonClick := true;
          onDisplayColumnKeysChange := true |} |}.

Definition slotsExact : gmap string SlotComponent :=
  {[ "header-slot" := SlotNamed "HeaderSlot"; "default" := SlotNamed "DefaultSlot" ]}.

Definition slotsDefaultOnly : gmap string SlotComponent :=
  {[ "default" := SlotNamed "DefaultSlot" ]}.

(** The same table with another data source. *)
Definition propsA' : GenericRenderProps :=
  {| gr_style := None; schemas := [selector; insertButton];
     tableProps :=
       {| driver := DriverNamed "antd"; schema := schemaA; dataSource := DataSourceAt 2;
          slots := None; onSearch := true; onInsertButtonClick := true;
          onDisplayColumnKeysChange := true |} |}.

(** A spacer that fills the row, and a text element with a style of its own. *)
Definition flexSpacer : DripTableGenericRenderElement :=
  {| basic := {| className := None; style := None; span := Some (SpanString "flex-auto");
                 align := None; visible := None |};
     variant := Spacer |}.

Definition styledText : DripTableGenericRenderElement :=
  {| basic := {| className := None;
                 style := Some [("paddingLeft", "12px"); ("color", "red")];
                 span := Some (SpanString "120px"); align := Some FlexEnd; visible := None |};
     variant := Text "total" |}.

Definition propsLayout : GenericRenderProps :=
  {| gr_style := None; schemas := [styledText; flexSpacer; insertButton];
     tableProps := tablePropsA |}.

(** Two display-column selectors and a hidden search element. *)
Definition hiddenSearch : DripTableGenericRenderElement :=
  {| basic := {| className := None; style := None; span := None; align := None;
                 visible := Some false |};
     variant := Search
                  {| wrapperClassName := None; wrapperStyle := None; placeholder := None;
                     allowClear := None; searchButtonText := Some "";
                     searchButtonSize := None; searchKeys := Some keysAB;
                     searchKeyDefaultValue := Some (Js.KNum 2) |} |}.

Definition propsTwoSelectors : GenericRenderProps :=
  {| gr_style := None; schemas := [selector; hiddenSearch; selector];
     tableProps := tablePropsA |}.

Definition worldTwoSelectors : World :=
  {| tableState := stateA; hooks := mount propsTwoSelectors |}.



End Scenario.

(** ** The built-ins on small inputs *)

Example trim_spaces : Js.trim "  abc  " = "abc".
Proof. reflexivity. Qed.

Example trim_inner_space_kept : Js.trim " a b " = "a b".
Proof. reflexivity. Qed.

Example classnames_skips_empty :
  Js.classnames [Some "generic-render-slot-element"; Some ""; None; Some "mine"]
  = "generic-render-slot-element mine".
Proof. reflexivity. Qed.

Example spread_overrides_in_place :
  Js.spread [("display", "flex"); ("paddingLeft", "0")] [("paddingLeft", "9px"); ("color", "red")]
  = [("display", "flex"); ("paddingLeft", "9px"); ("color", "red")].
Proof. reflexivity. Qed.

Example initial_key_skips_falsy_defaults :
  initialSearchKey (schemas Scenario.propsSearches) = Some (Js.KNum 2).
Proof. reflexivity. Qed.

(** ** The display-column key list under the menu click *)

Section DisplayColumnKeys.

Implicit Types (keys : list string) (e_key k : string).

Lemma without_not_elem keys e_key : e_key ∉ Js.without e_key keys.
Proof.
  unfold Js.without. rewrite list_elem_of_filter. intros [Hne _]. by apply Hne.
Qed.

Lemma without_absent keys e_key : e_key ∉ keys → Js.without e_key keys = keys.
Proof.
  unfold Js.without. induction keys as [|x keys IH]; [done|].
  intros Hnot. apply not_elem_of_cons in Hnot as [Hne Hnot].
  rewrite filter_cons_True by congruence. by rewrite IH.
Qed.

Lemma without_idemp keys e_key :
  Js.without e_key (Js.without e_key keys) = Js.without e_key keys.
Proof. apply without_absent, without_not_elem. Qed.

Lemma without_snoc keys e_key :
  Js.without e_key (keys ++ [e_key]) = Js.without e_key keys.
Proof.
  unfold Js.without. rewrite filter_app, filter_cons_False by (intros H; by apply H).
  by rewrite filter_nil, app_nil_r.
Qed.

Lemma without_present_shorter keys e_key :
  e_key ∈ keys → (List.length (Js.without e_key keys) < List.length keys)%nat.
Proof.
  intros Hin. unfold Js.without.
  apply (length_filter_lt _ _ e_key); [done|]. intros H. by apply H.
Qed.

Lemma toggled_absent keys e_key :
  e_key ∉ keys → toggledColumnKeys e_key keys = keys ++ [e_key].
Proof.
  intros Hnot. unfold toggledColumnKeys, Js.includes.
  rewrite bool_decide_eq_false_2 by done. simpl. by rewrite without_absent.
Qed.

Lemma toggled_present keys e_key :
  e_key ∈ keys → toggledColumnKeys e_key keys = Js.without e_key keys.
Proof.
  intros Hin. unfold toggledColumnKeys, Js.includes.
  by rewrite bool_decide_eq_true_2.
Qed.

(** The other keys pass through one toggle untouched: same keys, same
    multiplicity, same order. *)
Lemma toggled_others keys e_key :
  Js.without e_key (toggledColumnKeys e_key keys) = Js.without e_key keys.
Proof.
  destruct (decide (e_key ∈ keys)) as [Hin|Hnot].
  - rewrite toggled_present by done. apply without_idemp.
  - rewrite toggled_absent by done. apply without_snoc.
Qed.

Lemma toggled_twice keys e_key :
  toggledColumnKeys e_key (toggledColumnKeys e_key keys)
  = if bool_decide (e_key ∈ keys) then Js.without e_key keys ++ [e_key] else keys.
Proof.
  case_bool_decide as Hin.
  - rewrite (toggled_present keys) by done.
    apply toggled_absent, without_not_elem.
  - rewrite (toggled_absent keys) by done.
    rewrite toggled_present by (apply elem_of_app; right; by apply list_elem_of_singleton).
    rewrite without_snoc. by apply without_absent.
Qed.

Lemma elem_of_without keys e_key k : k ∈ Js.without e_key keys ↔ k ≠ e_key ∧ k ∈ keys.
Proof. unfold Js.without. by rewrite list_elem_of_filter. Qed.

Lemma elem_of_toggled keys e_key k :
  k ∈ toggledColumnKeys e_key keys ↔ (k ≠ e_key ∧ k ∈ keys) ∨ (k = e_key ∧ e_key ∉ keys).
Proof.
  destruct (decide (e_key ∈ keys)) as [Hin|Hnot].
  - rewrite toggled_present, elem_of_without by done. tauto.
  - rewrite toggled_absent, elem_of_app, list_elem_of_singleton by done.
    split.
    + intros [Hk| ->]; [left|right]; [|done]. split; [|done]. by intros ->.
    + intros [[_ Hk]|[-> _]]; [by left|by right].
Qed.

Lemma toggled_changes keys e_key : toggledColumnKeys e_key keys ≠ keys.
Proof.
  destruct (decide (e_key ∈ keys)) as [Hin|Hnot]; intros Heq.
  - rewrite toggled_present in Heq by done.
    pose proof (without_present_shorter keys e_key Hin) as Hlt.
    rewrite Heq in Hlt. lia.
  - rewrite toggled_absent in Heq by done.
    apply (f_equal List.length) in Heq. rewrite length_app in Heq. simpl in Heq. lia.
Qed.

Lemma without_NoDup_perm keys e_key :
  NoDup keys → e_key ∈ keys → Js.without e_key keys ++ [e_key] ≡ₚ keys.
Proof.
  intros Hnd Hin. induction Hnd as [|x keys Hx Hnd IH]; [by apply elem_of_nil in Hin|].
  unfold Js.without in *. destruct (decide (x = e_key)) as [->|Hne].
  - rewrite filter_cons_False by (intros H; by apply H).
    fold (Js.without e_key keys). rewrite without_absent by done.
    symmetry. apply Permutation_cons_append.
  - rewrite filter_cons_True by done. simpl. constructor.
    apply IH. apply elem_of_cons in Hin as [?|?]; [congruence|done].
Qed.

Lemma clickMenu_keys tp info e_key st :
  displayColumnKeys (clickMenu tp info e_key st)
  = toggledColumnKeys e_key (displayColumnKeys st).
Proof. reflexivity. Qed.

Lemma clickMenu_rest tp info e_key st :
  currentPage (clickMenu tp info e_key st) = currentPage st
  ∧ selectedRowKeys (clickMenu tp info e_key st) = selectedRowKeys st
  ∧ filters (clickMenu tp info e_key st) = filters st
  ∧ searchParams (clickMenu tp info e_key st) = searchParams st.
Proof. done. Qed.

End DisplayColumnKeys.

(** ** What the rendered tree contains *)

Section Rendered.

Implicit Types (p : GenericRenderProps) (w : World) (h : Hooks).

(** The content at an index is the content of the element at that index,
    unless the element is switched off. *)
Lemma contentAt_eq p w index :
  contentAt p w index
  = item ← schemas p !! index;
    if bool_decide (visible (basic item) ≠ Some false)
    then renderColumnContent p (tableState w) (hooks w) item
    else None.
Proof.
  unfold contentAt, GenericRender. case_bool_decide as Hlen; simpl.
  - rewrite list_lookup_imap. by destruct (schemas p !! index).
  - destruct (schemas p) as [|item l]; [done|]. simpl in Hlen. lia.
Qed.

Lemma contentAt_visible p w index item :
  schemas p !! index = Some item →
  visible (basic item) ≠ Some false →
  contentAt p w index = renderColumnContent p (tableState w) (hooks w) item.
Proof.
  intros Hitem Hvis. rewrite contentAt_eq, Hitem. simpl.
  by rewrite bool_decide_eq_true_2.
Qed.

Lemma contentAt_element p w index content :
  contentAt p w index = Some content →
  ∃ item, schemas p !! index = Some item
          ∧ visible (basic item) ≠ Some false
          ∧ renderColumnContent p (tableState w) (hooks w) item = Some content.
Proof.
  rewrite contentAt_eq. destruct (schemas p !! index) as [item|]; [|done]. simpl.
  case_bool_decide; [|done]. intros Hc. by exists item.
Qed.

(** Each kind of content comes from the element variant of the same kind. *)
Lemma render_selector_inv p ts h item v :
  renderColumnContent p ts h item = Some (ColumnSelector v) →
  (∃ c, variant item = DisplayColumnSelector c)
  ∧ hidableColumns (schema (tableProps p)) ≠ []
  ∧ item_key <$> dropdown_overlay v = key <$> hidableColumns (schema (tableProps p)).
Proof.
  unfold renderColumnContent. destruct (variant item) as [| | | |slot props| |c]; try done.
  - destruct (resolveSlot _ _); done.
  - case_bool_decide as Hlen; [done|]. intros [= <-]. simpl.
    split; [by exists c|]. split.
    + intros Hnil. by rewrite Hnil in Hlen.
    + by rewrite <-list_fmap_compose.
Qed.

Lemma render_search_inv p ts h item v :
  renderColumnContent p ts h item = Some (SearchBox v) →
  ∃ c, variant item = Search c
       ∧ input_value (search_input v) = searchStr h
       ∧ (select_value <$> search_select v) = (λ _, searchKey h) <$> searchKeys c.
Proof.
  unfold renderColumnContent. destruct (variant item) as [| | |c|slot props| |c]; try done.
  - intros [= <-]. exists c. simpl. split; [done|]. split; [done|].
    by destruct (searchKeys c).
  - destruct (resolveSlot _ _); done.
  - case_bool_decide; done.
Qed.

Lemma render_slot_inv p ts h item v :
  renderColumnContent p ts h item = Some (SlotElement v) →
  ∃ slot props, variant item = Slot slot props
                ∧ resolveSlot (tableProps p) slot = Some (slot_component v).
Proof.
  unfold renderColumnContent. destruct (variant item) as [| | |c|slot props| |c]; try done.
  - destruct (resolveSlot _ _) as [f|] eqn:Hf; [|done].
    intros [= <-]. by exists slot, props.
  - case_bool_decide; done.
Qed.

Lemma render_insert_inv p ts h item v :
  renderColumnContent p ts h item = Some (InsertButtonElement v) →
  ∃ c, variant item = InsertButton c.
Proof.
  unfold renderColumnContent. destruct (variant item) as [| | |c|slot props|c|c]; try done.
  - destruct (resolveSlot _ _); done.
  - by exists c.
  - case_bool_decide; done.
Qed.


End Rendered.

(** ** What the handlers do *)

Section Handlers.

Implicit Types (p : GenericRenderProps) (w : World) (ev : Event).

(** Case analysis on the content a handler looks up. *)
Ltac content_cases :=
  match goal with
  | |- context [contentAt ?p ?w ?i] =>
      let Hc := fresh "Hcontent" in
      destruct (contentAt p w i) as [[]|] eqn:Hc; try discriminate
  end.

Lemma handle_menu_click p w index e_key w' calls :
  handle p w (MenuClick index e_key) = Some (w', calls) →
  hidableColumns (schema (tableProps p)) ≠ []
  ∧ w' = {| tableState := clickMenu (tableProps p) (tableInfo (hooks w)) e_key (tableState w);
            hooks := hooks w |}
  ∧ calls = (if onDisplayColumnKeysChange (tableProps p)
             then [CallOnDisplayColumnKeysChange
                     (toggledColumnKeys e_key (displayColumnKeys (tableState w)))
                     (tableInfo (hooks w))]
             else []).
Proof.
  unfold handle. content_cases.
  apply contentAt_element in Hcontent as (item & _ & _ & Hr).
  apply render_selector_inv in Hr as (_ & Hne & _).
  intros [= <- <-]. done.
Qed.

(** A click in the menu of a rendered selector is always handled, whatever
    key it carries. *)
Lemma handle_menu_click_listed p w index item c e_key :
  schemas p !! index = Some item →
  visible (basic item) ≠ Some false →
  variant item = DisplayColumnSelector c →
  hidableColumns (schema (tableProps p)) ≠ [] →
  handle p w (MenuClick index e_key)
  = Some ({| tableState := clickMenu (tableProps p) (tableInfo (hooks w)) e_key (tableState w);
             hooks := hooks w |},
          if onDisplayColumnKeysChange (tableProps p)
          then [CallOnDisplayColumnKeysChange
                  (toggledColumnKeys e_key (displayColumnKeys (tableState w)))
                  (tableInfo (hooks w))]
          else []).
Proof.
  intros Hitem Hvis Hvar Hk. unfold handle.
  rewrite (contentAt_visible p w index item) by done.
  unfold renderColumnContent. rewrite Hvar.
  case_bool_decide as Hlen; [|done].
  by destruct (hidableColumns (schema (tableProps p))).
Qed.

(** Only a menu click changes the table state, and the hooks keep their
    memo cell under every handler. *)
Lemma handle_effect p w ev w' calls :
  handle p w ev = Some (w', calls) →
  tableInfoMemo (hooks w') = tableInfoMemo (hooks w)
  ∧ (tableState w' = tableState w
     ∨ ∃ index e_key, ev = MenuClick index e_key
         ∧ hidableColumns (schema (tableProps p)) ≠ []
         ∧ tableState w' = clickMenu (tableProps p) (tableInfo (hooks w)) e_key (tableState w)).
Proof.
  destruct ev as [i v|i t|i v|i sp|i e|i k|i v].
  6: { intros H. apply handle_menu_click in H as (Hk & -> & _).
       split; [done|]. right. by exists i, k. }
  all: unfold handle; content_cases.
  - destruct (search_select _); [|done]. intros [= <- <-]. by split; [|left].
  - intros [= <- <-]. by split; [|left].
  - intros [= <- <-]. by split; [|left].
  - intros [= <- <-]. by split; [|left].
  - intros [= <- <-]. by split; [|left].
  - intros [= <- <-]. by split; [|left].
Qed.

(** Every callback a handler calls is handed the memoized table
    information of the render the handler belongs to. *)
Lemma handle_calls_info p w ev w' calls call :
  handle p w ev = Some (w', calls) →
  call ∈ calls →
  callbackInfo call = tableInfo (hooks w).
Proof.
  destruct ev as [i v|i t|i v|i sp|i e|i k|i v].
  6: { intros H. apply handle_menu_click in H as (_ & _ & ->).
       destruct (onDisplayColumnKeysChange _); [|by intros ?%elem_of_nil].
       by intros ->%list_elem_of_singleton. }
  all: unfold handle; content_cases.
  - destruct (search_select _); [|done]. intros [= <- <-]. by intros ?%elem_of_nil.
  - intros [= <- <-]. by intros ?%elem_of_nil.
  - intros [= <- <-]. destruct (onSearch _); [|by intros ?%elem_of_nil].
    by intros ->%list_elem_of_singleton.
  - intros [= <- <-]. destruct (onSearch _); [|by intros ?%elem_of_nil].
    by intros ->%list_elem_of_singleton.
  - intros [= <- <-]. destruct (onInsertButtonClick _); [|by intros ?%elem_of_nil].
    by intros ->%list_elem_of_singleton.
  - intros [= <- <-]. by intros ?%elem_of_nil.
Qed.

(** The search callback is reached from a submit of the search input or
    from a slot, and from nothing else. *)
Lemma handle_search_origin p w ev w' calls params info :
  handle p w ev = Some (w', calls) →
  CallOnSearch params info ∈ calls →
  (∃ index, ev = InputSearch index (sp_searchStr params)
            ∧ sp_searchKey params = searchKey (hooks w))
  ∨ (∃ index, ev = SlotSearch index params).
Proof.
  destruct ev as [i v|i t|i v|i sp|i e|i k|i v].
  6: { intros H. apply handle_menu_click in H as (_ & _ & ->).
       destruct (onDisplayColumnKeysChange _); [|by intros ?%elem_of_nil].
       by intros ?%list_elem_of_singleton. }
  all: unfold handle; content_cases.
  - destruct (search_select _); [|done]. intros [= <- <-]. by intros ?%elem_of_nil.
  - intros [= <- <-]. by intros ?%elem_of_nil.
  - intros [= <- <-]. destruct (onSearch _); [|by intros ?%elem_of_nil].
    intros [= -> ->]%list_elem_of_singleton. left. by exists i.
  - intros [= <- <-]. destruct (onSearch _); [|by intros ?%elem_of_nil].
    intros [= -> ->]%list_elem_of_singleton. right. by exists i.
  - intros [= <- <-]. destruct (onInsertButtonClick _); [|by intros ?%elem_of_nil].
    by intros ?%list_elem_of_singleton.
  - intros [= <- <-]. by intros ?%elem_of_nil.
Qed.

End Handlers.

(** ** Toggling the visibility of a column *)

Section Toggle.

Implicit Types (tp : DripTableProps) (info : DripTableTableInformation).
Implicit Types (st : IDripTableContext) (e_key : string).

(** C1, as amended. Two clicks on the same menu entry give back a display
    list with the same keys as before, not the same list: a key that was
    displayed ends up once, at the end, and the list is the one before only
    when the key was hidden. A single click leaves the other keys as they
    were, none duplicated, none dropped, in the same order. *)
Theorem click_twice_same_keys tp info e_key st :
  displayColumnKeys (clickMenu tp info e_key (clickMenu tp info e_key st))
  = (if bool_decide (e_key ∈ displayColumnKeys st)
     then Js.without e_key (displayColumnKeys st) ++ [e_key]
     else displayColumnKeys st)
  ∧ (∀ k, k ∈ displayColumnKeys (clickMenu tp info e_key (clickMenu tp info e_key st))
          ↔ k ∈ displayColumnKeys st)
  ∧ (NoDup (displayColumnKeys st) →
     displayColumnKeys (clickMenu tp info e_key (clickMenu tp info e_key st))
     ≡ₚ displayColumnKeys st)
  ∧ Js.without e_key (displayColumnKeys (clickMenu tp info e_key st))
    = Js.without e_key (displayColumnKeys st).
Proof.
  rewrite !clickMenu_keys. split; [apply toggled_twice|]. split; [|split].
  - intros k. rewrite toggled_twice. case_bool_decide as Hin; [|done].
    rewrite elem_of_app, elem_of_without, list_elem_of_singleton.
    split.
    + intros [[_ Hk]| ->]; done.
    + intros Hk. destruct (decide (k = e_key)); [by right|by left].
  - intros Hnd. rewrite toggled_twice. case_bool_decide as Hin; [|done].
    by apply without_NoDup_perm.
  - apply toggled_others.
Qed.

(** C1, as stated, fails: hiding [mock_1] and showing it again turns the
    list [mock_1; mock_2] into [mock_2; mock_1]. *)
Lemma click_twice_reorders :
  displayColumnKeys
    (clickMenu Scenario.tablePropsA Scenario.infoA "mock_1"
       (clickMenu Scenario.tablePropsA Scenario.infoA "mock_1" Scenario.stateA))
  = ["mock_2"; "mock_1"]
  ∧ displayColumnKeys
      (clickMenu Scenario.tablePropsA Scenario.infoA "mock_1"
         (clickMenu Scenario.tablePropsA Scenario.infoA "mock_1" Scenario.stateA))
    ≠ displayColumnKeys Scenario.stateA.
Proof. split; [reflexivity|discriminate]. Qed.

(** C9. A click on the entry of a hidden column puts its key at the end of
    the display list, whatever place the column has in the schema; and a
    key hidden and shown again ends up last whatever place it had in the
    list. *)
Theorem show_hidden_column_appends tp info e_key st :
  e_key ∉ displayColumnKeys st →
  displayColumnKeys (clickMenu tp info e_key st) = displayColumnKeys st ++ [e_key]
  ∧ ∀ front back, e_key ∉ front → e_key ∉ back →
      toggledColumnKeys e_key (toggledColumnKeys e_key (front ++ e_key :: back))
      = front ++ back ++ [e_key].
Proof.
  intros Hhidden. rewrite clickMenu_keys. split; [by apply toggled_absent|].
  intros front back Hf Hb. rewrite toggled_twice.
  rewrite bool_decide_eq_true_2 by (apply elem_of_app; right; by left).
  unfold Js.without. rewrite filter_app, filter_cons_False by (intros H; by apply H).
  fold (Js.without e_key front) (Js.without e_key back).
  by rewrite !without_absent, <-app_assoc.
Qed.

Lemma show_hidden_column_appends_witness :
  ("mock_1" ∉ displayColumnKeys Scenario.stateHidden)
  ∧ displayColumnKeys
      (clickMenu Scenario.tablePropsA Scenario.infoA "mock_1" Scenario.stateHidden)
    = ["mock_2"; "mock_1"].
Proof.
  assert ("mock_1" ∉ displayColumnKeys Scenario.stateHidden) as Hhidden.
  { vm_compute. intros [H|H]%elem_of_cons; [discriminate|by apply elem_of_nil in H]. }
  split; [exact Hhidden|].
  exact (proj1 (show_hidden_column_appends Scenario.tablePropsA Scenario.infoA "mock_1"
                  Scenario.stateHidden Hhidden)).
Defined.

(** C6, as amended. The transition does not look at the schema. With a key
    that no column of the schema has it raises no fault and toggles the key
    like any other: appended when the display list lacks it, removed when
    the list has it, so the state changes either way, and the
    display-column callback, when the consumer gave one, is called with the
    new list. The click handler of a rendered selector passes such a key
    to the transition as it passes any other. *)
Theorem unknown_key_is_toggled tp info e_key st :
  e_key ∉ columnKeys (schema tp) →
  displayColumnKeys (clickMenu tp info e_key st)
  = (if bool_decide (e_key ∈ displayColumnKeys st)
     then filter (λ k, k ≠ e_key) (displayColumnKeys st)
     else displayColumnKeys st ++ [e_key])
  ∧ clickMenu tp info e_key st ≠ st
  ∧ snd (setTableState (menuOnClick tp info e_key) st)
    = (if onDisplayColumnKeysChange tp
       then [CallOnDisplayColumnKeysChange
               (displayColumnKeys (clickMenu tp info e_key st)) info]
       else [])
  ∧ ∀ p w index v,
      tableProps p = tp →
      contentAt p w index = Some (ColumnSelector v) →
      handle p w (MenuClick index e_key)
      = Some ({| tableState := clickMenu tp (tableInfo (hooks w)) e_key (tableState w);
                 hooks := hooks w |},
              snd (setTableState (menuOnClick tp (tableInfo (hooks w)) e_key) (tableState w))).
Proof.
  intros Hunknown. rewrite clickMenu_keys. split; [|split; [|split]].
  - case_bool_decide; [by apply toggled_present|by apply toggled_absent].
  - intros Heq. apply (f_equal displayColumnKeys) in Heq.
    rewrite clickMenu_keys in Heq. by apply toggled_changes in Heq.
  - done.
  - intros p w index v <- Hc. unfold handle. by rewrite Hc.
Qed.

Lemma unknown_key_is_toggled_witness :
  displayColumnKeys (clickMenu Scenario.tablePropsA Scenario.infoA "mock_9" Scenario.stateA)
  = ["mock_1"; "mock_2"; "mock_9"]
  ∧ clickMenu Scenario.tablePropsA Scenario.infoA "mock_9" Scenario.stateA ≠ Scenario.stateA
  ∧ snd (setTableState (menuOnClick Scenario.tablePropsA Scenario.infoA "mock_9")
           Scenario.stateA)
    = [CallOnDisplayColumnKeysChange ["mock_1"; "mock_2"; "mock_9"] Scenario.infoA].
Proof.
  assert ("mock_9" ∉ columnKeys (schema Scenario.tablePropsA)) as Hunknown.
  { vm_compute. intros [H|[H|H]%elem_of_cons]%elem_of_cons;
      [discriminate|discriminate|by apply elem_of_nil in H]. }
  destruct (unknown_key_is_toggled Scenario.tablePropsA Scenario.infoA "mock_9"
              Scenario.stateA Hunknown) as (Hkeys & Hchanged & Hcall & _).
  split; [exact Hkeys|]. split; [exact Hchanged|exact Hcall].
Defined.

(** C6, as stated, fails: the transition applied with the key [mock_9],
    which no column of the schema has, is not a no-op; the key joins the
    display list and the change is notified. *)
Lemma unknown_key_is_not_ignored :
  ("mock_9" ∉ columnKeys (schema Scenario.tablePropsA))
  ∧ (setTableState (menuOnClick Scenario.tablePropsA Scenario.infoA "mock_9") Scenario.stateA
     = ({| displayColumnKeys := ["mock_1"; "mock_2"; "mock_9"]; currentPage := 1;
           selectedRowKeys := []; filters := []; searchParams := None |},
        [CallOnDisplayColumnKeysChange ["mock_1"; "mock_2"; "mock_9"] Scenario.infoA]))
  ∧ clickMenu Scenario.tablePropsA Scenario.infoA "mock_9" Scenario.stateA ≠ Scenario.stateA.
Proof.
  split; [|split; [reflexivity|discriminate]].
  vm_compute. intros [H|[H|H]%elem_of_cons]%elem_of_cons;
    [discriminate|discriminate|by apply elem_of_nil in H].
Qed.

End Toggle.

(** ** Runs of the component *)

Section Runs.

Implicit Types (s : Session) (p : GenericRenderProps).

Lemma useMemo_tableInfo_fresh p :
  useMemo (tableInfoFactory (tableProps p)) (tableInfoDeps (tableProps p)) None
  = (tableInfoDeps (tableProps p), tableInfoFactory (tableProps p) tt).
Proof. reflexivity. Qed.

(** Same dependencies: the stored object is kept. Another schema identifier
    or another data source reference: the factory runs again. *)
Lemma useMemo_tableInfo_next p deps info :
  useMemo (tableInfoFactory (tableProps p)) (tableInfoDeps (tableProps p)) (Some (deps, info))
  = if decide (deps = tableInfoDeps (tableProps p)) then (deps, info)
    else (tableInfoDeps (tableProps p), tableInfoFactory (tableProps p) tt).
Proof. reflexivity. Qed.

Lemma rerender_memo p p' h :
  tableInfoMemo h = (tableInfoDeps (tableProps p), tableInfoFactory (tableProps p) tt) →
  tableInfoMemo (rerender p' h)
  = (tableInfoDeps (tableProps p'), tableInfoFactory (tableProps p') tt).
Proof.
  intros Hm. unfold rerender. cbn [tableInfoMemo]. rewrite Hm, useMemo_tableInfo_next.
  case_decide as Hd; [|done]. rewrite <-Hd. f_equal.
  unfold tableInfoDeps in Hd. unfold tableInfoFactory. by injection Hd as -> ->.
Qed.

Lemma start_memoCurrent p ts : memoCurrent (start p ts).
Proof. apply useMemo_tableInfo_fresh. Qed.

Lemma step_memoCurrent s st s' calls :
  memoCurrent s → step s st = Some (s', calls) → memoCurrent s'.
Proof.
  unfold memoCurrent. intros Hm. destruct st as [p'|ev]; simpl.
  - intros [= <- <-]. simpl. by apply (rerender_memo (current s)).
  - destruct (handle (current s) (world s) ev) as [[w calls']|] eqn:Hh; [|done].
    simpl. intros [= <- <-]. simpl.
    apply (rerender_memo (current s)).
    apply handle_effect in Hh as [-> _]. done.
Qed.

Lemma run_memoCurrent s steps s' calls :
  memoCurrent s → run s steps = Some (s', calls) → memoCurrent s'.
Proof.
  revert s calls. induction steps as [|st steps IH]; intros s calls Hm; simpl.
  - by intros [= <- <-].
  - destruct (step s st) as [[s1 calls1]|] eqn:Hstep; [|done]. simpl.
    destruct (run s1 steps) as [[s2 calls2]|] eqn:Hrun; [|done]. simpl.
    intros [= <- <-]. eapply IH; [|done]. by eapply step_memoCurrent.
Qed.

Lemma memoCurrent_tableInfo s :
  memoCurrent s →
  tableInfo (hooks (world s))
  = {| info_id := id (schema (tableProps (current s)));
       info_dataSource := dataSource (tableProps (current s)) |}.
Proof. unfold memoCurrent, tableInfo. by intros ->. Qed.

(** A handler leaves the properties alone, and the state cells survive the
    render that follows it. *)
Lemma step_fire s ev s' calls :
  step s (Fire ev) = Some (s', calls) →
  ∃ w, handle (current s) (world s) ev = Some (w, calls)
       ∧ current s' = current s
       ∧ tableState (world s') = tableState w
       ∧ searchStr (hooks (world s')) = searchStr (hooks w)
       ∧ searchKey (hooks (world s')) = searchKey (hooks w)
       ∧ displayColumnVisible (hooks (world s')) = displayColumnVisible (hooks w).
Proof.
  simpl. destruct (handle (current s) (world s) ev) as [[w calls']|]; [|done].
  simpl. intros [= <- <-]. by exists w.
Qed.

Lemma run_cons s st steps :
  run s (st :: steps)
  = '(s1, calls1) ← step s st;
    '(s2, calls2) ← run s1 steps;
    Some (s2, calls1 ++ calls2).
Proof. reflexivity. Qed.






(** C8. In every session reached from a mount, by renders with any
    properties and by events, each callback a handler calls (the search
    callback from a search element or from a slot, the insert callback, the
    display-column callback) is handed the table information made of the
    identifier of the current schema and of the current data source
    reference. The memo keeps the stored object while both are the same and
    builds it again as soon as one of them differs. *)
Theorem callbacks_get_current_table_info p ts steps s calls0 ev w calls call :
  run (start p ts) steps = Some (s, calls0) →
  handle (current s) (world s) ev = Some (w, calls) →
  call ∈ calls →
  callbackInfo call
  = {| info_id := id (schema (tableProps (current s)));
       info_dataSource := dataSource (tableProps (current s)) |}
  ∧ tableInfo (hooks (world s))
    = {| info_id := id (schema (tableProps (current s)));
         info_dataSource := dataSource (tableProps (current s)) |}
  ∧ ∀ p', tableInfoMemo (rerender p' (hooks (world s)))
          = if decide (tableInfoDeps (tableProps (current s)) = tableInfoDeps (tableProps p'))
            then tableInfoMemo (hooks (world s))
            else (tableInfoDeps (tableProps p'), tableInfoFactory (tableProps p') tt).
Proof.
  intros Hrun Hh Hcall.
  assert (memoCurrent s) as Hm by (eapply run_memoCurrent; [apply start_memoCurrent|done]).
  split; [|split].
  - rewrite (handle_calls_info _ _ _ _ _ _ Hh Hcall). by apply memoCurrent_tableInfo.
  - by apply memoCurrent_tableInfo.
  - intros p'. unfold rerender. cbn [tableInfoMemo].
    rewrite Hm. apply useMemo_tableInfo_next.
Qed.

Lemma callbacks_get_current_table_info_witness :
  callbackInfo
    (CallOnInsertButtonClick (ClickAt 3 4)
       {| info_id := Some (Js.KStr "sample-table"); info_dataSource := DataSourceAt 2 |})
  = {| info_id := id (schema (tableProps Scenario.propsA'));
       info_dataSource := dataSource (tableProps Scenario.propsA') |}.
Proof.
  refine (proj1 (callbacks_get_current_table_info
                   Scenario.propsA Scenario.stateA
                   [Fire (MenuClick 0 "mock_1"); Render Scenario.propsA']
                   {| current := Scenario.propsA';
                      world := {| tableState := clickMenu Scenario.tablePropsA Scenario.infoA
                                                  "mock_1" Scenario.stateA;
                                  hooks := rerender Scenario.propsA' (mount Scenario.propsA) |} |}
                   [CallOnDisplayColumnKeysChange ["mock_2"] Scenario.infoA]
                   (InsertClick 1 (ClickAt 3 4))
                   {| tableState := clickMenu Scenario.tablePropsA Scenario.infoA
                                      "mock_1" Scenario.stateA;
                      hooks := rerender Scenario.propsA' (mount Scenario.propsA) |}
                   [CallOnInsertButtonClick (ClickAt 3 4)
                      {| info_id := Some (Js.KStr "sample-table");
                         info_dataSource := DataSourceAt 2 |}]
                   _ _ _ _)).
  - vm_compute. reflexivity.
  - vm_compute. reflexivity.
  - left.
Defined.

End Runs.

(** ** The elements of the toolbar *)

Section Elements.

Implicit Types (p : GenericRenderProps) (w : World).

(** C5. A rendered display-column selector lists the columns whose
    [hidable] flag is set, in schema order, and no other; with no such
    column it renders nothing. A click on a listed entry toggles the key of
    that column in the display list: a key that is in the list is taken out
    of it, a key that is not is put at its end, and nothing else of the
    state changes. The display-column callback, when the consumer gave
    one, is called once with the whole new list and the table
    information. *)
Theorem selector_lists_hidable_columns p w index item c :
  schemas p !! index = Some item →
  visible (basic item) ≠ Some false →
  variant item = DisplayColumnSelector c →
  (filter (λ col, hidable col = Some true) (columns (schema (tableProps p))) = [] →
   contentAt p w index = None)
  ∧ (filter (λ col, hidable col = Some true) (columns (schema (tableProps p))) ≠ [] →
     ∃ v, contentAt p w index = Some (ColumnSelector v)
          ∧ item_key <$> dropdown_overlay v
            = key <$> filter (λ col, hidable col = Some true) (columns (schema (tableProps p)))
          ∧ ∀ k, k ∈ item_key <$> dropdown_overlay v ↔
                 ∃ col, col ∈ columns (schema (tableProps p))
                        ∧ hidable col = Some true ∧ key col = k)
  ∧ (∀ e_key,
       e_key ∈ key <$> filter (λ col, hidable col = Some true) (columns (schema (tableProps p))) →
       ∃ w', handle p w (MenuClick index e_key)
             = Some (w', if onDisplayColumnKeysChange (tableProps p)
                         then [CallOnDisplayColumnKeysChange
                                 (displayColumnKeys (tableState w')) (tableInfo (hooks w))]
                         else [])
             ∧ (e_key ∈ displayColumnKeys (tableState w) →
                displayColumnKeys (tableState w')
                = filter (λ k, k ≠ e_key) (displayColumnKeys (tableState w)))
             ∧ (e_key ∉ displayColumnKeys (tableState w) →
                displayColumnKeys (tableState w')
                = displayColumnKeys (tableState w) ++ [e_key])
             ∧ hooks w' = hooks w
             ∧ currentPage (tableState w') = currentPage (tableState w)
             ∧ selectedRowKeys (tableState w') = selectedRowKeys (tableState w)
             ∧ filters (tableState w') = filters (tableState w)
             ∧ searchParams (tableState w') = searchParams (tableState w)).
Proof.
  intros Hitem Hvis Hvar. fold (hidableColumns (schema (tableProps p))).
  split; [|split].
  - intros Hnone. rewrite (contentAt_visible p w index item) by done.
    unfold renderColumnContent. rewrite Hvar, Hnone. done.
  - intros Hsome. rewrite (contentAt_visible p w index item) by done.
    unfold renderColumnContent. rewrite Hvar.
    rewrite bool_decide_eq_false_2 by (by destruct (hidableColumns (schema (tableProps p)))).
    eexists. split; [done|]. cbn [dropdown_overlay].
    rewrite <-list_fmap_compose. split; [reflexivity|].
    intros k. rewrite list_elem_of_fmap. unfold hidableColumns. split.
    + intros (col & -> & [Hh Hcol]%list_elem_of_filter). by exists col.
    + intros (col & Hcol & Hh & <-). exists col. split; [reflexivity|].
      by apply list_elem_of_filter.
  - intros e_key Hk.
    assert (hidableColumns (schema (tableProps p)) ≠ []) as Hne.
    { intros Hnil. rewrite Hnil in Hk. by apply elem_of_nil in Hk. }
    rewrite (handle_menu_click_listed p w index item c e_key) by done.
    exists {| tableState := clickMenu (tableProps p) (tableInfo (hooks w)) e_key (tableState w);
              hooks := hooks w |}.
    split; [reflexivity|]. cbn [tableState hooks]. rewrite clickMenu_keys.
    split; [by apply toggled_present|]. split; [by apply toggled_absent|]. done.
Qed.

(** Scenario A: only [mock_1] is listed, [mock_2] never is. Hiding [mock_1]
    leaves [mock_2] in the display list and notifies the consumer with that
    list; the next click on the same entry shows the column again, its key
    now last. *)
Lemma selector_lists_hidable_columns_witness :
  (∃ v, contentAt Scenario.propsA Scenario.worldA 0 = Some (ColumnSelector v)
        ∧ item_key <$> dropdown_overlay v = ["mock_1"]
        ∧ "mock_2" ∉ item_key <$> dropdown_overlay v)
  ∧ handle Scenario.propsA Scenario.worldA (MenuClick 0 "mock_1")
    = Some ({| tableState := Scenario.stateHidden; hooks := mount Scenario.propsA |},
            [CallOnDisplayColumnKeysChange ["mock_2"] Scenario.infoA])
  ∧ handle Scenario.propsA
      {| tableState := Scenario.stateHidden; hooks := mount Scenario.propsA |}
      (MenuClick 0 "mock_1")
    = Some ({| tableState :=
                 {| displayColumnKeys := ["mock_2"; "mock_1"]; currentPage := 1;
                    selectedRowKeys := []; filters := []; searchParams := None |};
               hooks := mount Scenario.propsA |},
            [CallOnDisplayColumnKeysChange ["mock_2"; "mock_1"] Scenario.infoA]).
Proof.
  assert ("mock_1" ∈ key <$> filter (λ col, hidable col = Some true)
                               (columns (schema (tableProps Scenario.propsA)))) as Hlisted.
  { vm_compute. left. }
  destruct (selector_lists_hidable_columns Scenario.propsA Scenario.worldA 0
              Scenario.selector
              {| selectorButtonText := None; selectorButtonType := None |})
    as (_ & Hlist & Hclick); [reflexivity|discriminate|reflexivity|].
  destruct (selector_lists_hidable_columns Scenario.propsA
              {| tableState := Scenario.stateHidden; hooks := mount Scenario.propsA |} 0
              Scenario.selector
              {| selectorButtonText := None; selectorButtonType := None |})
    as (_ & _ & Hclick'); [reflexivity|discriminate|reflexivity|].
  split; [|split].
  - destruct Hlist as (v & Hv & Hkeys & _); [discriminate|].
    exists v. split; [done|]. split; [exact Hkeys|].
    rewrite Hkeys. vm_compute.
    intros [H|H]%elem_of_cons; [discriminate|by apply elem_of_nil in H].
  - destruct (Hclick "mock_1" Hlisted) as (w' & Hh & Hhide & _ & Hhooks & Hp & Hs & Hf & Hsp).
    rewrite Hh. destruct w' as [[keys' page sel flt sp] h']. simpl in *.
    rewrite Hhide by (vm_compute; left). by subst.
  - destruct (Hclick' "mock_1" Hlisted) as (w' & Hh & _ & Hshow & Hhooks & Hp & Hs & Hf & Hsp).
    rewrite Hh. destruct w' as [[keys' page sel flt sp] h']. simpl in *.
    rewrite Hshow; [by subst|]. vm_compute.
    intros [H|H]%elem_of_cons; [discriminate|by apply elem_of_nil in H].
Defined.

(** C4. A keystroke in the input of a rendered search element only stores
    the trimmed text: no callback is called. A submit calls the search
    callback, when the consumer gave one, once, with the selected search
    key, the submitted text and the table information. The search callback
    is called on no other event of a search element. *)
Theorem search_calls_back_on_submit p w index item c :
  schemas p !! index = Some item →
  visible (basic item) ≠ Some false →
  variant item = Search c →
  (∀ target_value,
     handle p w (InputChange index target_value)
     = Some (withHooks w (setSearchStr (Js.trim target_value) (hooks w)), []))
  ∧ (∀ value,
       handle p w (InputSearch index value)
       = Some (w, if onSearch (tableProps p)
                  then [CallOnSearch {| sp_searchKey := searchKey (hooks w);
                                        sp_searchStr := value |}
                          (tableInfo (hooks w))]
                  else []))
  ∧ (∀ ev w' calls params info,
       handle p w ev = Some (w', calls) →
       CallOnSearch params info ∈ calls →
       (∃ i, ev = InputSearch i (sp_searchStr params)) ∨ (∃ i, ev = SlotSearch i params)).
Proof.
  intros Hitem Hvis Hvar. split; [|split].
  - intros t. unfold handle. rewrite (contentAt_visible p w index item) by done.
    unfold renderColumnContent. by rewrite Hvar.
  - intros v. unfold handle. rewrite (contentAt_visible p w index item) by done.
    unfold renderColumnContent. by rewrite Hvar.
  - intros ev w' calls params info Hh Hcall.
    destruct (handle_search_origin _ _ _ _ _ _ _ Hh Hcall) as [(i & -> & _)|(i & ->)];
      [left|right]; by exists i.
Qed.

(** Scenario B: two search keys, no default, the text [abc] typed and
    submitted with no key selected. *)
Lemma search_calls_back_on_submit_witness :
  searchKey (hooks Scenario.worldB) = None
  ∧ snd <$> handle Scenario.propsB Scenario.worldB (InputChange 0 "abc") = Some []
  ∧ handle Scenario.propsB Scenario.worldB (InputSearch 0 "abc")
    = Some (Scenario.worldB,
            [CallOnSearch {| sp_searchKey := None; sp_searchStr := "abc" |} Scenario.infoA])
  ∧ snd <$> run (start Scenario.propsB Scenario.stateA)
              (Fire <$> [InputChange 0 "a"; InputChange 0 "ab"; InputChange 0 "abc";
                         InputSearch 0 "abc"])
    = Some [CallOnSearch {| sp_searchKey := None; sp_searchStr := "abc" |} Scenario.infoA].
Proof.
  destruct (search_calls_back_on_submit Scenario.propsB Scenario.worldB 0
              (Scenario.searchWith (Some Scenario.keysAB) None)
              {| wrapperClassName := None; wrapperStyle := None; placeholder := None;
                 allowClear := None; searchButtonText := None; searchButtonSize := None;
                 searchKeys := Some Scenario.keysAB; searchKeyDefaultValue := None |})
    as (Hchange & Hsubmit & _); [reflexivity|discriminate|reflexivity|].
  split; [reflexivity|]. split; [by rewrite Hchange|]. split; [apply Hsubmit|].
  vm_compute. reflexivity.
Defined.

End Elements.

(** ** Slots, layout and the search state *)

Section Toolbar.

Implicit Types (p : GenericRenderProps) (w : World) (h : Hooks).
Implicit Types (ts : IDripTableContext).

Lemma default_not_inherited : "default" ∉ objectPrototypeMembers.
Proof.
  unfold objectPrototypeMembers. intros H.
  repeat (apply elem_of_cons in H as [H|H]; [discriminate|]).
  by apply elem_of_nil in H.
Qed.

Lemma getSlot_default (registry : gmap string SlotComponent) :
  getSlot registry "default" = registry !! "default".
Proof.
  unfold getSlot. destruct (registry !! "default"); [done|].
  by rewrite bool_decide_eq_false_2 by apply default_not_inherited.
Qed.

Lemma getSlot_own_only (registry : gmap string SlotComponent) slot :
  slot ∉ objectPrototypeMembers → getSlot registry slot = registry !! slot.
Proof.
  intros Hslot. unfold getSlot. destruct (registry !! slot); [done|].
  by rewrite bool_decide_eq_false_2.
Qed.

Lemma getSlot_inherited (registry : gmap string SlotComponent) slot :
  registry !! slot = None → slot ∈ objectPrototypeMembers →
  getSlot registry slot = Some (ObjectPrototypeMember slot).
Proof.
  intros Hnone Hslot. unfold getSlot. by rewrite Hnone, bool_decide_eq_true_2.
Qed.

(** C3: the code misses the names a plain object inherits. The registry is
    read with [slots[config.slot]], which also answers for the members of
    [Object.prototype]: for a slot identifier such as [toString] that the
    consumer never registered, the element renders the inherited function
    as its slot, not the registered default and not the error element.
    For every other identifier the resolution is as the claim has it: the
    function registered under the identifier, else the one registered as
    [default], else the error element whose text carries the identifier;
    never nothing. *)
Theorem slot_lookup_reaches_object_prototype :
  (∀ p ts h item slot props registry,
     variant item = Slot slot props →
     slots (tableProps p) = Some registry →
     registry !! slot = None →
     slot ∈ objectPrototypeMembers →
     ∃ v, renderColumnContent p ts h item = Some (SlotElement v)
          ∧ slot_component v = ObjectPrototypeMember slot)
  ∧ renderColumnContent (Scenario.withSlots (Some Scenario.slotsDefaultOnly)) Scenario.stateA
      (mount (Scenario.withSlots (Some Scenario.slotsDefaultOnly)))
      (Scenario.slotElement "toString")
    = Some (SlotElement
              {| slot_component := ObjectPrototypeMember "toString";
                 slot_props := ∅;
                 slot_className := "generic-render-slot-element";
                 slot_slotType := "toString";
                 slot_driver := DriverNamed "antd";
                 slot_schema := Scenario.schemaA;
                 slot_dataSource := DataSourceAt 1 |})
  ∧ (∀ p ts h item slot props,
       variant item = Slot slot props →
       slot ∉ objectPrototypeMembers →
       (∀ f, slots (tableProps p) ≫= (λ m, m !! slot) = Some f →
          ∃ v, renderColumnContent p ts h item = Some (SlotElement v)
               ∧ slot_component v = f ∧ slot_slotType v = slot)
       ∧ (∀ d, slots (tableProps p) ≫= (λ m, m !! slot) = None →
               slots (tableProps p) ≫= (λ m, m !! "default") = Some d →
          ∃ v, renderColumnContent p ts h item = Some (SlotElement v)
               ∧ slot_component v = d ∧ slot_slotType v = slot)
       ∧ (slots (tableProps p) ≫= (λ m, m !! slot) = None →
          slots (tableProps p) ≫= (λ m, m !! "default") = None →
          ∃ cls, renderColumnContent p ts h item
                 = Some (SlotError cls
                           ("自定义插槽组件渲染函数 tableProps.slots['" +:+ slot +:+ "'] 不存在")))
       ∧ renderColumnContent p ts h item ≠ None).
Proof.
  split; [|split].
  - intros p ts h item slot props registry Hvar Hslots Hnone Hslot.
    unfold renderColumnContent, resolveSlot. rewrite Hvar, Hslots. simpl.
    rewrite getSlot_inherited by done. eexists. by split.
  - reflexivity.
  - intros p ts h item slot props Hvar Hslot.
    assert (resolveSlot (tableProps p) slot
            = match slots (tableProps p) ≫= (λ m, m !! slot) with
              | Some f => Some f
              | None => slots (tableProps p) ≫= (λ m, m !! "default")
              end) as Hres.
    { unfold resolveSlot. destruct (slots (tableProps p)) as [registry|]; [|done]. simpl.
      by rewrite getSlot_own_only, getSlot_default. }
    unfold renderColumnContent. rewrite Hvar, Hres.
    split; [|split; [|split]].
    + intros f ->. eexists. by split.
    + intros d -> ->. eexists. by split.
    + intros -> ->. by eexists.
    + destruct (slots (tableProps p) ≫= _); [done|].
      by destruct (slots (tableProps p) ≫= _).
Qed.

(** The three ways of the resolution on a slot identifier of the
    consumer's own. *)
Lemma slot_resolution_examples :
  (∃ v, renderColumnContent (Scenario.withSlots (Some Scenario.slotsExact)) Scenario.stateA
          (mount (Scenario.withSlots (Some Scenario.slotsExact)))
          (Scenario.slotElement "header-slot") = Some (SlotElement v)
        ∧ slot_component v = SlotNamed "HeaderSlot" ∧ slot_slotType v = "header-slot")
  ∧ (∃ v, renderColumnContent (Scenario.withSlots (Some Scenario.slotsDefaultOnly)) Scenario.stateA
            (mount (Scenario.withSlots (Some Scenario.slotsDefaultOnly)))
            (Scenario.slotElement "header-slot") = Some (SlotElement v)
          ∧ slot_component v = SlotNamed "DefaultSlot" ∧ slot_slotType v = "header-slot")
  ∧ (∃ cls, renderColumnContent (Scenario.withSlots None) Scenario.stateA
              (mount (Scenario.withSlots None)) (Scenario.slotElement "header-slot")
            = Some (SlotError cls
                      "自定义插槽组件渲染函数 tableProps.slots['header-slot'] 不存在")).
Proof.
  split; [|split]; eexists; vm_compute; (reflexivity || (split; [reflexivity|by split])).
Qed.

(** C2, as stated, fails: a toolbar made of one element with [visible]
    set to [false] still renders the [Col] of that element, with its key,
    class name, span and padding; the element is not skipped. *)
Lemma invisible_element_keeps_its_col :
  visible (basic Scenario.hiddenText) = Some false
  ∧ toolbar_cols <$> GenericRender Scenario.propsHidden Scenario.stateA
                       (mount Scenario.propsHidden)
    = Some [ {| col_key := 0; col_className := Some "note";
                col_style := [("width", None); ("display", Some "flex"); ("flex", None);
                              ("justifyContent", Some "center");
                              ("paddingLeft", Some "0"); ("paddingRight", Some "3px")];
                col_span := Some 6; col_content := None |} ]
  ∧ ¬ skipsInvisible Scenario.propsHidden Scenario.stateA (mount Scenario.propsHidden).
Proof.
  split; [reflexivity|]. split; [reflexivity|].
  intros Hskip. specialize (Hskip _ eq_refl). vm_compute in Hskip. discriminate.
Qed.

Lemma find_first {A} (f : A → bool) (l : list A) index x :
  l !! index = Some x →
  f x = true →
  (∀ j y, (j < index)%nat → l !! j = Some y → f y = false) →
  Js.find f l = Some x.
Proof.
  revert index. induction l as [|a l IH]; intros index Hx Hf Hbefore; [done|].
  destruct index as [|index]; simpl in *.
  - injection Hx as ->. by rewrite Hf.
  - rewrite (Hbefore 0%nat a) by (done || lia).
    apply (IH index); [done|done|].
    intros j y Hj Hy. apply (Hbefore (S j) y); [lia|done].
Qed.

Lemma find_none {A} (f : A → bool) (l : list A) :
  (∀ x, x ∈ l → f x = false) → Js.find f l = None.
Proof.
  induction l as [|a l IH]; intros Hall; [done|]. simpl.
  rewrite (Hall a) by left. apply IH. intros x Hx. apply Hall. by right.
Qed.

Lemma initialSearchKey_eq (elements : list DripTableGenericRenderElement) :
  initialSearchKey elements = mjoin (Js.find Js.truthy (defaultSearchKeyOf <$> elements)).
Proof. reflexivity. Qed.

Lemma defaultSearchKeyOf_falsy item :
  (∀ c, variant item = Search c → Js.truthy (searchKeyDefaultValue c) = false) →
  Js.truthy (defaultSearchKeyOf item) = false.
Proof.
  unfold defaultSearchKeyOf. intros Hc. destruct (variant item); try done. by apply Hc.
Qed.

Lemma render_search p ts h item c :
  variant item = Search c →
  ∃ v, renderColumnContent p ts h item = Some (SearchBox v)
       ∧ input_value (search_input v) = searchStr h
       ∧ select_value <$> search_select v = (λ _, searchKey h) <$> searchKeys c.
Proof.
  intros Hvar. unfold renderColumnContent. rewrite Hvar. eexists. split; [done|].
  simpl. split; [done|]. by destruct (searchKeys c).
Qed.

(** C10. The toolbar has one search-text cell and one search-key cell, and
    every search element shows them: two rendered search elements always
    display the same text and the same selected key, and a change made
    through one of them is displayed by the others. The search key starts
    as the first truthy [searchKeyDefaultValue] in the order of the element
    list; a default of [0] or of the empty string counts as absent, and with
    no truthy default the key starts undefined. *)
Theorem search_state_is_shared p :
  (∀ index item c v,
     schemas p !! index = Some item →
     variant item = Search c →
     searchKeyDefaultValue c = Some v →
     Js.truthy (Some v) = true →
     (∀ j item' c', (j < index)%nat → schemas p !! j = Some item' →
        variant item' = Search c' → Js.truthy (searchKeyDefaultValue c') = false) →
     searchKey (mount p) = Some v)
  ∧ ((∀ item c, item ∈ schemas p → variant item = Search c →
        Js.truthy (searchKeyDefaultValue c) = false) →
     searchKey (mount p) = None)
  ∧ Js.truthy (Some (Js.KNum 0)) = false
  ∧ Js.truthy (Some (Js.KStr "")) = false
  ∧ (∀ w i j vi vj,
       contentAt p w i = Some (SearchBox vi) →
       contentAt p w j = Some (SearchBox vj) →
       input_value (search_input vi) = searchStr (hooks w)
       ∧ input_value (search_input vj) = searchStr (hooks w)
       ∧ ∀ si sj, search_select vi = Some si → search_select vj = Some sj →
           select_value si = searchKey (hooks w) ∧ select_value sj = searchKey (hooks w))
  ∧ (∀ w i j vj target_value w' calls,
       handle p w (InputChange i target_value) = Some (w', calls) →
       contentAt p w j = Some (SearchBox vj) →
       ∃ vj', contentAt p w' j = Some (SearchBox vj')
              ∧ input_value (search_input vj') = Js.trim target_value)
  ∧ (∀ w i j vj sj value w' calls,
       handle p w (SelectChange i value) = Some (w', calls) →
       contentAt p w j = Some (SearchBox vj) →
       search_select vj = Some sj →
       ∃ vj' sj', contentAt p w' j = Some (SearchBox vj')
                  ∧ search_select vj' = Some sj'
                  ∧ select_value sj' = Some value).
Proof.
  split; [|split; [|split; [|split; [|split; [|split]]]]]; [| |done|done| | |].
  - intros index item c v Hitem Hvar Hdef Htruthy Hbefore.
    unfold mount. cbn [searchKey]. rewrite initialSearchKey_eq.
    rewrite (find_first _ _ index (Some v)); [done| |done|].
    + rewrite list_lookup_fmap, Hitem. simpl. unfold defaultSearchKeyOf.
      by rewrite Hvar, Hdef.
    + intros j y Hj. rewrite list_lookup_fmap.
      destruct (schemas p !! j) as [item'|] eqn:Hj'; [|done]. intros [= <-].
      apply defaultSearchKeyOf_falsy. intros c'. by apply (Hbefore j).
  - intros Hall. unfold mount. cbn [searchKey]. rewrite initialSearchKey_eq.
    rewrite find_none; [done|].
    intros x (item & -> & Hin)%list_elem_of_fmap.
    apply defaultSearchKeyOf_falsy. intros c. by apply Hall.
  - intros w i j vi vj Hi Hj.
    apply contentAt_element in Hi as (itemi & _ & _ & Hri).
    apply contentAt_element in Hj as (itemj & _ & _ & Hrj).
    apply render_search_inv in Hri as (ci & _ & Hti & Hki).
    apply render_search_inv in Hrj as (cj & _ & Htj & Hkj).
    split; [done|]. split; [done|].
    intros si sj Hsi Hsj. rewrite Hsi in Hki. rewrite Hsj in Hkj.
    destruct (searchKeys ci), (searchKeys cj); simpl in Hki, Hkj; try discriminate.
    injection Hki as Hki. injection Hkj as Hkj. by split.
  - intros w i j vj t w' calls Hh Hj.
    unfold handle in Hh.
    destruct (contentAt p w i) as [[]|]; try done. injection Hh as <- <-.
    apply contentAt_element in Hj as (item & Hitem & Hvis & Hr).
    apply render_search_inv in Hr as (c & Hvar & _).
    rewrite (contentAt_visible _ _ j item) by done.
    destruct (render_search p (tableState w) (setSearchStr (Js.trim t) (hooks w)) item c Hvar)
      as (v' & Hv' & Ht & _).
    by exists v'.
  - intros w i j vj sj value w' calls Hh Hj Hsj.
    unfold handle in Hh.
    destruct (contentAt p w i) as [[]|]; try done.
    destruct (search_select _); [|done]. injection Hh as <- <-.
    apply contentAt_element in Hj as (item & Hitem & Hvis & Hr).
    apply render_search_inv in Hr as (c & Hvar & _ & Hk).
    rewrite (contentAt_visible _ _ j item) by done.
    destruct (render_search p (tableState w) (setSearchKey (Some value) (hooks w)) item c Hvar)
      as (v' & Hv' & _ & Hk').
    rewrite Hsj in Hk. destruct (searchKeys c); simpl in Hk; [|discriminate].
    destruct (search_select v') as [sj'|] eqn:Hsj'; simpl in Hk'; [|discriminate].
    exists v', sj'. split; [done|]. split; [done|]. by injection Hk'.
Qed.

(** Four search elements with the defaults [0], [''], [2] and [1]: the
    key starts at [2], and the text typed in the first one is shown by the
    last one. *)
Lemma search_state_is_shared_witness :
  searchKey (mount Scenario.propsSearches) = Some (Js.KNum 2)
  ∧ searchKey (mount Scenario.propsFalsyDefaults) = None
  ∧ ∃ w' v, handle Scenario.propsSearches
              {| tableState := Scenario.stateA; hooks := mount Scenario.propsSearches |}
              (InputChange 0 " abc ") = Some (w', [])
            ∧ contentAt Scenario.propsSearches w' 4 = Some (SearchBox v)
            ∧ input_value (search_input v) = "abc".
Proof.
  destruct (search_state_is_shared Scenario.propsSearches) as (Hfirst & _ & _ & _ & _ & Htext & _).
  destruct (search_state_is_shared Scenario.propsFalsyDefaults) as (_ & Hnone & _).
  split; [|split].
  - apply (Hfirst 3%nat (Scenario.searchWith (Some Scenario.keysAB) (Some (Js.KNum 2))) _
             (Js.KNum 2) eq_refl eq_refl eq_refl eq_refl).
    intros j item' c' Hj Hitem Hvar.
    destruct j as [|[|[|j]]]; [| | |lia]; simpl in Hitem; injection Hitem as <-;
      simpl in Hvar; try discriminate; by injection Hvar as <-.
  - apply Hnone. intros item c Hin Hvar.
    apply elem_of_cons in Hin as [->|Hin]; [by injection Hvar as <-|].
    apply elem_of_cons in Hin as [->|Hin]; [by injection Hvar as <-|].
    by apply elem_of_nil in Hin.
  - destruct (contentAt Scenario.propsSearches
                {| tableState := Scenario.stateA; hooks := mount Scenario.propsSearches |} 4)
      as [[| |v0| | | |]|] eqn:Hc0; try (vm_compute in Hc0; discriminate).
    destruct (Htext {| tableState := Scenario.stateA; hooks := mount Scenario.propsSearches |}
                0%nat 4%nat v0 " abc "
                (withHooks {| tableState := Scenario.stateA;
                              hooks := mount Scenario.propsSearches |}
                   (setSearchStr (Js.trim " abc ")
                      (mount Scenario.propsSearches))) [] eq_refl Hc0)
      as (v & Hv & Hval).
    eexists _, v. split; [reflexivity|]. split; [exact Hv|exact Hval].
Defined.

End Toolbar.

(** ** The layout of the columns *)

Section Layout.

Implicit Types (p : GenericRenderProps) (ts : IDripTableContext) (h : Hooks).

Lemma get_set_property {V} k k' (v : V) o :
  Js.get k (Js.set_property k' v o) = if bool_decide (k = k') then Some v else Js.get k o.
Proof.
  induction o as [|[k0 v0] o IH]; simpl.
  - done.
  - destruct (bool_decide (k' = k0)) eqn:Hk0; simpl.
    + apply bool_decide_eq_true in Hk0 as <-. by case_bool_decide.
    + apply bool_decide_eq_false in Hk0. rewrite IH.
      repeat case_bool_decide; congruence.
Qed.

Lemma get_snoc {V} k (o : list (string * V)) k' v :
  Js.get k (o ++ [(k', v)])
  = match Js.get k o with
    | Some x => Some x
    | None => if bool_decide (k = k') then Some v else None
    end.
Proof.
  induction o as [|[k0 v0] o IH]; simpl; [done|].
  destruct (bool_decide (k = k0)); [done|apply IH].
Qed.

(** A spread object answers with the last value the spread-in object gives
    a property, and with the value of the base for the properties the
    spread-in object lacks. *)
Lemma get_spread {V} k (base over : list (string * V)) :
  Js.get k (Js.spread base over)
  = match Js.get k (reverse over) with
    | Some v => Some v
    | None => Js.get k base
    end.
Proof.
  unfold Js.spread. revert base. induction over as [|[k' v'] over IH]; intros base; simpl.
  - done.
  - rewrite IH, reverse_cons, get_snoc, get_set_property.
    destruct (Js.get k (reverse over)); [done|]. by case_bool_decide.
Qed.

Lemma get_fmap_Some k (o : list (string * string)) :
  Js.get k ((λ kv, (kv.1, Some kv.2)) <$> o) = Some <$> Js.get k o.
Proof.
  induction o as [|[k' v'] o IH]; simpl; [done|].
  destruct (bool_decide (k = k')); [done|apply IH].
Qed.

Lemma colStyle_get p index item k :
  Js.get k (colStyle p index item)
  = match Js.get k (reverse (default [] (style (basic item)))) with
    | Some v => Some (Some v)
    | None => Js.get k (colStyle p index
                {| basic := {| className := className (basic item); style := None;
                               span := span (basic item); align := align (basic item);
                               visible := visible (basic item) |};
                   variant := variant item |})
    end.
Proof.
  unfold colStyle at 1. rewrite get_spread, <-fmap_reverse, get_fmap_Some.
  by destruct (Js.get k (reverse _)).
Qed.

(** C2, as amended. A toolbar with at least one element renders one [Col]
    per element, in the order of the element list, the [Col] of the element
    at an index keyed by that index. An element whose [visible] is [false]
    is not skipped: it keeps its [Col], with the key, the class name, the
    grid span and the style (width, flex, alignment, paddings, the own style
    of the element over them) that a visible element gets; only the content
    of that [Col] is left out. *)
Theorem every_element_gets_its_col p ts h index item :
  schemas p !! index = Some item →
  ∃ toolbar col,
    GenericRender p ts h = Some toolbar
    ∧ List.length (toolbar_cols toolbar) = List.length (schemas p)
    ∧ toolbar_cols toolbar !! index = Some col
    ∧ col_key col = index
    ∧ col_className col = className (basic item)
    ∧ col_span col = match span (basic item) with
                     | Some (SpanNumber n) => Some n
                     | _ => None
                     end
    ∧ (∀ k, Js.get k (col_style col)
            = match Js.get k (reverse (default [] (style (basic item)))) with
              | Some v => Some (Some v)
              | None =>
                  Js.get k
                    [ ("width",
                       match span (basic item) with
                       | Some (SpanString s) =>
                           if bool_decide (s = "flex-auto") then None else Some s
                       | _ => None
                       end);
                      ("display", Some "flex");
                      ("flex",
                       match span (basic item) with
                       | Some (SpanString s) =>
                           if bool_decide (s = "flex-auto") then Some "1 1 auto" else None
                       | _ => None
                       end);
                      ("justifyContent",
                       Some match align (basic item) with
                            | Some FlexStart => "flex-start"
                            | Some Center => "center"
                            | Some FlexEnd => "flex-end"
                            | Some SpaceBetween => "space-between"
                            | Some SpaceAround => "space-around"
                            | None => "center"
                            end);
                      ("paddingLeft", Some (if bool_decide (index = 0%nat) then "0" else "3px"));
                      ("paddingRight",
                       Some (if bool_decide (S index = List.length (schemas p))
                             then "3px" else "0")) ]
              end)
    ∧ col_content col
      = if bool_decide (visible (basic item) = Some false) then None
        else renderColumnContent p ts h item.
Proof.
  intros Hitem. unfold GenericRender.
  rewrite bool_decide_eq_true_2 by (apply lookup_lt_Some in Hitem; lia).
  eexists _, (renderCol p ts h index item). split; [done|]. cbn [toolbar_cols].
  split; [apply length_imap|]. split; [by rewrite list_lookup_imap, Hitem|].
  split; [done|]. split; [done|]. split; [done|]. split.
  - intros k. unfold renderCol. cbn [col_style].
    rewrite (colStyle_get p index item k).
    destruct (Js.get k (reverse _)); [done|].
    unfold colStyle. cbn [basic style span align default fmap list_fmap].
    unfold Js.spread. cbn [foldl].
    assert ((if bool_decide (Z.of_nat index = Z.of_nat (List.length (schemas p)) - 1)
             then "3px" else "0")
            = (if bool_decide (S index = List.length (schemas p)) then "3px" else "0"))
      as ->.
    { repeat case_bool_decide; (done || lia). }
    destruct (span (basic item)) as [[n|s]|], (align (basic item)) as [[]|];
      try done; by repeat case_bool_decide.
  - unfold renderCol. cbn [col_content]. repeat case_bool_decide; done.
Qed.

Lemma every_element_gets_its_col_witness :
  ∃ toolbar col,
    GenericRender Scenario.propsMixed Scenario.stateA (mount Scenario.propsMixed) = Some toolbar
    ∧ List.length (toolbar_cols toolbar) = 3%nat
    ∧ toolbar_cols toolbar !! 1%nat = Some col
    ∧ col_key col = 1%nat
    ∧ col_className col = Some "note"
    ∧ col_span col = Some 6
    ∧ Js.get "paddingLeft" (col_style col) = Some (Some "3px")
    ∧ Js.get "paddingRight" (col_style col) = Some (Some "0")
    ∧ Js.get "display" (col_style col) = Some (Some "flex")
    ∧ col_content col = None.
Proof.
  destruct (every_element_gets_its_col Scenario.propsMixed Scenario.stateA
              (mount Scenario.propsMixed) 1 Scenario.hiddenText eq_refl)
    as (toolbar & col & Hrender & Hlen & Hcol & Hkey & Hclass & Hspan & Hstyle & Hcontent).
  exists toolbar, col.
  split; [exact Hrender|]. split; [exact Hlen|]. split; [exact Hcol|].
  split; [exact Hkey|]. split; [exact Hclass|]. split; [exact Hspan|].
  split; [exact (Hstyle "paddingLeft")|]. split; [exact (Hstyle "paddingRight")|].
  split; [exact (Hstyle "display")|exact Hcontent].
Defined.

(** X1. The toolbar renders nothing at all exactly when its element list
    is empty; a list of elements that are all switched off still renders
    the row. *)
Theorem toolbar_is_null_iff_no_element p ts h :
  GenericRender p ts h = None ↔ schemas p = [].
Proof.
  unfold GenericRender. case_bool_decide as Hlen.
  - split; [done|]. intros Hnil. rewrite Hnil in Hlen. simpl in Hlen. lia.
  - split; [|done]. intros _. destruct (schemas p); [done|]. simpl in Hlen. lia.
Qed.

(** X2. Gutters. A column whose element sets no padding of its own has a
    left padding of [0] when it is the first and of [3px] otherwise, and a
    right padding of [3px] when it is the last and of [0] otherwise; it is
    always a flex container. *)
Theorem col_gutters p ts h index item col toolbar :
  GenericRender p ts h = Some toolbar →
  toolbar_cols toolbar !! index = Some col →
  schemas p !! index = Some item →
  Js.get "paddingLeft" (default [] (style (basic item))) = None →
  Js.get "paddingRight" (default [] (style (basic item))) = None →
  Js.get "display" (default [] (style (basic item))) = None →
  Js.get "paddingLeft" (col_style col)
  = Some (Some (if bool_decide (index = 0%nat) then "0" else "3px"))
  ∧ Js.get "paddingRight" (col_style col)
    = Some (Some (if bool_decide (S index = List.length (schemas p)) then "3px" else "0"))
  ∧ Js.get "display" (col_style col) = Some (Some "flex").
Proof.
  unfold GenericRender. case_bool_decide; [|done]. intros [= <-]. simpl.
  rewrite list_lookup_imap. intros Hcol Hitem. rewrite Hitem in Hcol.
  injection Hcol as <-. simpl.
  assert (∀ k, Js.get k (default [] (style (basic item))) = None →
               Js.get k (reverse (default [] (style (basic item)))) = None) as Hrev.
  { intros k. generalize (default [] (style (basic item))). intros o.
    induction o as [|[k' v'] o IH]; simpl; [done|].
    case_bool_decide; [done|]. intros Ho. rewrite reverse_cons, get_snoc, IH by done.
    by rewrite bool_decide_eq_false_2. }
  intros Hl Hr Hd.
  rewrite (colStyle_get p index item "paddingLeft"), (colStyle_get p index item "paddingRight"),
    (colStyle_get p index item "display"), !Hrev by done.
  split; [done|]. split; [|done]. simpl.
  do 2 f_equal. repeat case_bool_decide; (done || lia).
Qed.

Lemma col_gutters_witness :
  ∃ col, toolbar_cols <$> GenericRender Scenario.propsLayout Scenario.stateA
                            (mount Scenario.propsLayout)
         = Some [ {| col_key := 0; col_className := None;
                     col_style := [("width", Some "120px"); ("display", Some "flex");
                                   ("flex", None); ("justifyContent", Some "flex-end");
                                   ("paddingLeft", Some "12px"); ("paddingRight", Some "0");
                                   ("color", Some "red")];
                     col_span := None;
                     col_content := Some (H3 "generic-render-text-element" "total") |};
                  {| col_key := 1; col_className := None;
                     col_style := [("width", None); ("display", Some "flex");
                                   ("flex", Some "1 1 auto"); ("justifyContent", Some "center");
                                   ("paddingLeft", Some "3px"); ("paddingRight", Some "0")];
                     col_span := None; col_content := None |};
                  col ]
         ∧ Js.get "paddingLeft" (col_style col) = Some (Some "3px")
         ∧ Js.get "paddingRight" (col_style col) = Some (Some "3px")
         ∧ Js.get "display" (col_style col) = Some (Some "flex").
Proof.
  destruct (GenericRender Scenario.propsLayout Scenario.stateA (mount Scenario.propsLayout))
    as [toolbar|] eqn:Hrender; [|vm_compute in Hrender; discriminate].
  destruct (toolbar_cols toolbar !! 2%nat) as [col|] eqn:Hcol;
    [|vm_compute in Hrender; injection Hrender as <-; vm_compute in Hcol; discriminate].
  exists col. split.
  - vm_compute in Hrender. injection Hrender as <-. vm_compute in Hcol.
    injection Hcol as <-. reflexivity.
  - exact (col_gutters Scenario.propsLayout Scenario.stateA (mount Scenario.propsLayout)
             2 Scenario.insertButton col toolbar Hrender Hcol eq_refl eq_refl eq_refl eq_refl).
Defined.

(** X3. The style of an element wins over the layout computed for its
    column: every property the element's style sets has, in the style of
    the column, the value the element gives it. *)
Theorem element_style_overrides_layout p index item own k v :
  style (basic item) = Some own →
  Js.get k (reverse own) = Some v →
  Js.get k (colStyle p index item) = Some (Some v).
Proof.
  intros Hown Hk. rewrite colStyle_get, Hown. simpl. by rewrite Hk.
Qed.

Lemma element_style_overrides_layout_witness :
  Js.get "paddingLeft" (colStyle Scenario.propsLayout 0 Scenario.styledText)
  = Some (Some "12px").
Proof.
  exact (element_style_overrides_layout Scenario.propsLayout 0 Scenario.styledText
           [("paddingLeft", "12px"); ("color", "red")] "paddingLeft" "12px" eq_refl eq_refl).
Defined.

(** X4. The span of an element sizes its column in one way only. A number
    goes to the grid span of the column and sets neither width nor flex;
    ['flex-auto'] sets the flex [1 1 auto] and nothing else; any other
    string is the width and nothing else; no span sets none of the three.
    (For an element whose own style sets neither width nor flex.) *)
Theorem span_sizes_column_one_way p ts h index item :
  Js.get "width" (default [] (style (basic item))) = None →
  Js.get "flex" (default [] (style (basic item))) = None →
  (col_span (renderCol p ts h index item),
   Js.get "width" (col_style (renderCol p ts h index item)),
   Js.get "flex" (col_style (renderCol p ts h index item)))
  = match span (basic item) with
    | Some (SpanNumber n) => (Some n, Some None, Some None)
    | Some (SpanString s) =>
        if bool_decide (s = "flex-auto") then (None, Some None, Some (Some "1 1 auto"))
        else (None, Some (Some s), Some None)
    | None => (None, Some None, Some None)
    end.
Proof.
  assert (∀ k, Js.get k (default [] (style (basic item))) = None →
               Js.get k (reverse (default [] (style (basic item)))) = None) as Hrev.
  { intros k. generalize (default [] (style (basic item))). intros o.
    induction o as [|[k' v'] o IH]; simpl; [done|].
    case_bool_decide; [done|]. intros Ho. rewrite reverse_cons, get_snoc, IH by done.
    by rewrite bool_decide_eq_false_2. }
  intros Hw Hf. unfold renderCol. cbn [col_span col_style].
  rewrite (colStyle_get p index item "width"), (colStyle_get p index item "flex"),
    !Hrev by done. simpl.
  destruct (span (basic item)) as [[n|s]|]; [done| |done].
  repeat case_bool_decide; done.
Qed.

Lemma span_sizes_column_one_way_witness :
  (col_span (renderCol Scenario.propsLayout Scenario.stateA (mount Scenario.propsLayout)
               1 Scenario.flexSpacer),
   Js.get "width" (col_style (renderCol Scenario.propsLayout Scenario.stateA
                                (mount Scenario.propsLayout) 1 Scenario.flexSpacer)),
   Js.get "flex" (col_style (renderCol Scenario.propsLayout Scenario.stateA
                               (mount Scenario.propsLayout) 1 Scenario.flexSpacer)))
  = (None, Some None, Some (Some "1 1 auto")).
Proof.
  exact (span_sizes_column_one_way Scenario.propsLayout Scenario.stateA
           (mount Scenario.propsLayout) 1 Scenario.flexSpacer eq_refl eq_refl).
Defined.

End Layout.

(** ** More on the display-column selector *)

Section Selector.

Implicit Types (p : GenericRenderProps) (w : World) (s : Session).
Implicit Types (tp : DripTableProps) (info : DripTableTableInformation).

Lemma without_NoDup keys e_key : NoDup keys → NoDup (Js.without e_key keys).
Proof. intros Hnd. unfold Js.without. by apply NoDup_filter. Qed.

(** X5. One click flips the visibility of the clicked column and of no
    other: the clicked key is in the new list exactly when it was not in
    the old one, every other key is in the new list exactly when it was in
    the old one. Every copy of a displayed key goes at once, a hidden key
    comes back once, and a list without duplicates stays without. *)
Theorem click_flips_one_column tp info e_key st :
  (e_key ∈ displayColumnKeys (clickMenu tp info e_key st) ↔ e_key ∉ displayColumnKeys st)
  ∧ (∀ k, k ≠ e_key →
       (k ∈ displayColumnKeys (clickMenu tp info e_key st) ↔ k ∈ displayColumnKeys st))
  ∧ (NoDup (displayColumnKeys st) → NoDup (displayColumnKeys (clickMenu tp info e_key st)))
  ∧ List.length (filter (λ k, k = e_key) (displayColumnKeys (clickMenu tp info e_key st)))
    = (if bool_decide (e_key ∈ displayColumnKeys st) then 0 else 1)%nat.
Proof.
  rewrite !clickMenu_keys. split; [|split; [|split]].
  - rewrite elem_of_toggled. split.
    + intros [[Hne _]|[_ Hnot]]; [done|done].
    + intros Hnot. by right.
  - intros k Hne. rewrite elem_of_toggled. split.
    + intros [[_ Hk]|[Heq _]]; done.
    + intros Hk. by left.
  - intros Hnd. destruct (decide (e_key ∈ displayColumnKeys st)) as [Hin|Hnot].
    + rewrite toggled_present by done. by apply without_NoDup.
    + rewrite toggled_absent by done. apply NoDup_app. split; [done|]. split.
      * intros x Hx ->%list_elem_of_singleton. done.
      * apply NoDup_singleton.
  - assert (∀ l, e_key ∉ l → filter (λ k, k = e_key) l = []) as Hnone.
    { intros l Hl. induction l as [|x l IH]; [done|].
      apply not_elem_of_cons in Hl as [Hne Hl].
      rewrite filter_cons_False by congruence. by apply IH. }
    case_bool_decide as Hin.
    + rewrite toggled_present by done. by rewrite Hnone by apply without_not_elem.
    + rewrite toggled_absent by done.
      rewrite filter_app, Hnone by done. by rewrite filter_cons_True.
Qed.

(** X6. The check mark of a menu entry shows whether the key of its column
    is in the display list: opacity [1] when it is, [0] when it is not. *)
Theorem check_mark_shows_display_state p w index v entry :
  contentAt p w index = Some (ColumnSelector v) →
  entry ∈ dropdown_overlay v →
  item_opacity entry
  = (if bool_decide (item_key entry ∈ displayColumnKeys (tableState w)) then 1 else 0)
  ∧ ∃ column, column ∈ columns (schema (tableProps p))
              ∧ hidable column = Some true
              ∧ item_key entry = key column ∧ item_title entry = title column.
Proof.
  intros Hc Hentry. apply contentAt_element in Hc as (item & _ & _ & Hr).
  unfold renderColumnContent in Hr.
  destruct (variant item) as [| | | |slot props| |c]; try done.
  { destruct (resolveSlot _ _); done. }
  case_bool_decide; [done|]. injection Hr as <-. simpl in Hentry.
  apply list_elem_of_fmap in Hentry as (column & -> & Hcol). simpl.
  split; [done|]. exists column.
  apply list_elem_of_filter in Hcol as [Hh Hcol]. done.
Qed.

Lemma check_mark_shows_display_state_witness :
  item_opacity {| item_key := "mock_1"; item_opacity := 1; item_title := "商品名称" |} = 1
  ∧ ∃ column, column ∈ columns (schema (tableProps Scenario.propsA))
              ∧ hidable column = Some true
              ∧ "mock_1" = key column ∧ "商品名称" = title column.
Proof.
  refine (check_mark_shows_display_state Scenario.propsA Scenario.worldA 0
            {| dropdown_className := "generic-render-display-column-selector-element";
               dropdown_trigger := ["click"];
               dropdown_overlay :=
                 [ {| item_key := "mock_1"; item_opacity := 1; item_title := "商品名称" |} ];
               dropdown_visible := false;
               dropdown_buttonType := None;
               dropdown_buttonText := "展示列" |}
            {| item_key := "mock_1"; item_opacity := 1; item_title := "商品名称" |} _ _).
  - vm_compute. reflexivity.
  - left.
Defined.

(** X7. An event is handled only when the element at its index exists,
    is not switched off and is of the kind that installs the handler: a
    search element for the input events (with search keys for the select),
    a slot whose lookup gave a function, inherited ones included, for a
    slot search, an insert button for its click, a selector with hidable
    columns for the dropdown and the menu. *)
Theorem events_reach_visible_elements_only p w ev w' calls :
  handle p w ev = Some (w', calls) →
  ∃ item, schemas p !! eventIndex ev = Some item
          ∧ visible (basic item) ≠ Some false
          ∧ installs p item ev.
Proof.
  intros Hh.
  assert (∃ content, contentAt p w (eventIndex ev) = Some content) as [content Hc].
  { destruct ev; simpl; unfold handle in Hh;
      destruct (contentAt p w index) as [content|]; try done; by exists content. }
  destruct (contentAt_element _ _ _ _ Hc) as (item & Hitem & Hvis & Hr).
  exists item. split; [done|]. split; [done|].
  unfold installs. destruct ev as [i v|i t|i v|i sp|i e|i k|i v]; simpl in Hc;
    unfold handle in Hh; rewrite Hc in Hh; destruct content; try done.
  - apply render_search_inv in Hr as (c & -> & _ & Hsel).
    destruct (search_select _); [|done]. by destruct (searchKeys c).
  - by apply render_search_inv in Hr as (c & -> & _).
  - by apply render_search_inv in Hr as (c & -> & _).
  - apply render_slot_inv in Hr as (slot & props & -> & Hres). by rewrite Hres.
  - by apply render_insert_inv in Hr as (c & ->).
  - by apply render_selector_inv in Hr as ((c & ->) & Hne & _).
  - by apply render_selector_inv in Hr as ((c & ->) & Hne & _).
Qed.

Lemma events_reach_visible_elements_only_witness :
  ∃ item, schemas Scenario.propsTwoSelectors !! 2%nat = Some item
          ∧ visible (basic item) ≠ Some false
          ∧ installs Scenario.propsTwoSelectors item (MenuClick 2 "mock_1").
Proof.
  refine (events_reach_visible_elements_only Scenario.propsTwoSelectors
            Scenario.worldTwoSelectors (MenuClick 2 "mock_1")
            {| tableState := Scenario.stateHidden; hooks := mount Scenario.propsTwoSelectors |}
            [CallOnDisplayColumnKeysChange ["mock_2"] Scenario.infoA] _).
  vm_compute. reflexivity.
Defined.

(** An element that is switched off installs no handler. *)
Lemma hidden_element_ignores_events p w ev item :
  schemas p !! eventIndex ev = Some item →
  visible (basic item) = Some false →
  handle p w ev = None.
Proof.
  intros Hitem Hhidden.
  assert (contentAt p w (eventIndex ev) = None) as Hc.
  { rewrite contentAt_eq, Hitem. simpl. by rewrite bool_decide_eq_false_2 by (by intros []). }
  destruct ev; simpl in Hc; unfold handle; by rewrite Hc.
Qed.

Lemma step_tableState_rest s st s' calls :
  step s st = Some (s', calls) →
  currentPage (tableState (world s')) = currentPage (tableState (world s))
  ∧ selectedRowKeys (tableState (world s')) = selectedRowKeys (tableState (world s))
  ∧ filters (tableState (world s')) = filters (tableState (world s))
  ∧ searchParams (tableState (world s')) = searchParams (tableState (world s)).
Proof.
  destruct st as [p'|ev].
  - by intros [= <- <-].
  - intros (w & Hh & _ & -> & _)%step_fire.
    apply handle_effect in Hh as [_ [->|(i & k & _ & _ & ->)]]; [done|].
    apply clickMenu_rest.
Qed.

(** X8. The toolbar writes nothing but the display-column list into the
    table state: over any sequence of renders and events the current page,
    the selected row keys, the filters and the search parameters of the
    table state stay as they were. *)
Theorem toolbar_writes_display_keys_only s steps s' calls :
  run s steps = Some (s', calls) →
  currentPage (tableState (world s')) = currentPage (tableState (world s))
  ∧ selectedRowKeys (tableState (world s')) = selectedRowKeys (tableState (world s))
  ∧ filters (tableState (world s')) = filters (tableState (world s))
  ∧ searchParams (tableState (world s')) = searchParams (tableState (world s)).
Proof.
  revert s calls. induction steps as [|st steps IH]; intros s calls.
  - by intros [= <- <-].
  - rewrite run_cons.
    destruct (step s st) as [[s1 calls1]|] eqn:Hstep; simpl; [|done].
    destruct (run s1 steps) as [[s2 calls2]|] eqn:Hrun; simpl; [|done].
    intros [= <- <-].
    destruct (IH _ _ Hrun) as (-> & -> & -> & ->).
    by apply step_tableState_rest in Hstep.
Qed.

Lemma toolbar_writes_display_keys_only_witness :
  currentPage (tableState (world
    {| current := Scenario.propsA';
       world := {| tableState := Scenario.stateHidden;
                   hooks := rerender Scenario.propsA' (mount Scenario.propsA) |} |})) = 1
  ∧ selectedRowKeys Scenario.stateHidden = selectedRowKeys Scenario.stateA
  ∧ filters Scenario.stateHidden = filters Scenario.stateA
  ∧ searchParams Scenario.stateHidden = searchParams Scenario.stateA.
Proof.
  refine (toolbar_writes_display_keys_only (start Scenario.propsA Scenario.stateA)
            [Fire (MenuClick 0 "mock_1"); Fire (DropdownVisibleChange 0 true);
             Fire (DropdownVisibleChange 0 false); Render Scenario.propsA']
            {| current := Scenario.propsA';
               world := {| tableState := Scenario.stateHidden;
                           hooks := rerender Scenario.propsA' (mount Scenario.propsA) |} |}
            [CallOnDisplayColumnKeysChange ["mock_2"] Scenario.infoA] _).
  vm_compute. reflexivity.
Defined.

End Selector.

(** ** Callbacks and the state cells *)

Section Callbacks.

Implicit Types (p : GenericRenderProps) (w : World) (s : Session).

Lemma renderCol_withoutCallbacks p ts h index item :
  renderCol (withoutCallbacks p) ts h index item = renderCol p ts h index item.
Proof. unfold renderCol, renderColumnContent, colStyle. by destruct (variant item). Qed.

Lemma contentAt_withoutCallbacks p w index :
  contentAt (withoutCallbacks p) w index = contentAt p w index.
Proof.
  unfold contentAt, GenericRender.
  change (schemas (withoutCallbacks p)) with (schemas p).
  change (gr_style (withoutCallbacks p)) with (gr_style p).
  rewrite (imap_ext (renderCol (withoutCallbacks p) (tableState w) (hooks w))
             (renderCol p (tableState w) (hooks w)) (schemas p)); [done|].
  intros i item _. apply renderCol_withoutCallbacks.
Qed.

(** X9. The callbacks are optional. An event calls at most one callback;
    with no callback supplied the same events are handled, they call
    nothing, and they change the state exactly as they do with callbacks. *)
Theorem callbacks_are_optional p w ev :
  (∀ w' calls, handle p w ev = Some (w', calls) → (List.length calls ≤ 1)%nat)
  ∧ handle (withoutCallbacks p) w ev = (λ r, (r.1, [])) <$> handle p w ev.
Proof.
  split.
  - intros w' calls Hh.
    destruct ev as [i v|i t|i v|i sp|i e|i k|i v].
    6: { apply handle_menu_click in Hh as (_ & _ & ->).
         destruct (onDisplayColumnKeysChange _); simpl; lia. }
    all: unfold handle in Hh; destruct (contentAt p w i) as [[]|]; try done.
    + destruct (search_select _); [|done]. injection Hh as <- <-. simpl. lia.
    + injection Hh as <- <-. simpl. lia.
    + injection Hh as <- <-. destruct (onSearch _); simpl; lia.
    + injection Hh as <- <-. destruct (onSearch _); simpl; lia.
    + injection Hh as <- <-. destruct (onInsertButtonClick _); simpl; lia.
    + injection Hh as <- <-. simpl. lia.
  - destruct ev as [i v|i t|i v|i sp|i e|i k|i v]; unfold handle;
      rewrite contentAt_withoutCallbacks;
      destruct (contentAt p w i) as [[]|]; try done.
    + by destruct (search_select _).
Qed.

Lemma handle_display_notifications p w ev w' calls :
  onDisplayColumnKeysChange (tableProps p) = true →
  handle p w ev = Some (w', calls) →
  displayColumnKeys (tableState w')
  = default (displayColumnKeys (tableState w)) (last (displayNotifications calls)).
Proof.
  intros Hon Hh. destruct ev as [i v|i t|i v|i sp|i e|i k|i v].
  6: { apply handle_menu_click in Hh as (_ & -> & ->). by rewrite Hon. }
  all: unfold handle in Hh; destruct (contentAt p w i) as [[]|]; try done.
  - destruct (search_select _); [|done]. by injection Hh as <- <-.
  - by injection Hh as <- <-.
  - injection Hh as <- <-. by destruct (onSearch _).
  - injection Hh as <- <-. by destruct (onSearch _).
  - injection Hh as <- <-. by destruct (onInsertButtonClick _).
  - by injection Hh as <- <-.
Qed.

(** X10. The consumer that listens to the display-column callback is never
    out of date: after any sequence of events the display list of the
    table state is the list of the last notification, or the list the
    sequence started with when nothing was notified. *)
Theorem last_notification_is_display_list s evs s' calls :
  onDisplayColumnKeysChange (tableProps (current s)) = true →
  run s (Fire <$> evs) = Some (s', calls) →
  displayColumnKeys (tableState (world s'))
  = default (displayColumnKeys (tableState (world s))) (last (displayNotifications calls)).
Proof.
  revert s calls. induction evs as [|ev evs IH]; intros s calls Hon.
  - by intros [= <- <-].
  - rewrite fmap_cons, run_cons.
    destruct (step s (Fire ev)) as [[s1 calls1]|] eqn:Hstep; simpl; [|done].
    destruct (run s1 (Fire <$> evs)) as [[s2 calls2]|] eqn:Hrun; simpl; [|done].
    intros [= <- <-].
    apply step_fire in Hstep as (w1 & Hh & Hcur & Hts & _).
    rewrite (IH s1 calls2) by (by rewrite ?Hcur).
    unfold displayNotifications. rewrite omap_app, last_app.
    fold (displayNotifications calls1) (displayNotifications calls2).
    destruct (last (displayNotifications calls2)); [done|]. simpl.
    rewrite Hts. exact (handle_display_notifications (current s) (world s) ev w1 calls1 Hon Hh).
Qed.

Lemma last_notification_is_display_list_witness :
  displayColumnKeys (tableState (world
    {| current := Scenario.propsA;
       world := {| tableState :=
                     {| displayColumnKeys := ["mock_2"; "mock_1"]; currentPage := 1;
                        selectedRowKeys := []; filters := []; searchParams := None |};
                   hooks := mount Scenario.propsA |} |}))
  = default (displayColumnKeys Scenario.stateA)
      (last (displayNotifications
               [CallOnDisplayColumnKeysChange ["mock_2"] Scenario.infoA;
                CallOnDisplayColumnKeysChange ["mock_2"; "mock_1"] Scenario.infoA;
                CallOnInsertButtonClick (ClickAt 3 4) Scenario.infoA])).
Proof.
  refine (last_notification_is_display_list (start Scenario.propsA Scenario.stateA)
            [MenuClick 0 "mock_1"; MenuClick 0 "mock_1"; InsertClick 1 (ClickAt 3 4)]
            _ _ eq_refl _).
  vm_compute. reflexivity.
Defined.

Lemma find_Some {A} (f : A → bool) (l : list A) x :
  Js.find f l = Some x → f x = true ∧ ∃ index, l !! index = Some x.
Proof.
  induction l as [|a l IH]; [done|]. simpl.
  destruct (f a) eqn:Ha.
  - intros [= <-]. split; [done|]. by exists 0%nat.
  - intros [Hx [index Hi]]%IH. split; [done|]. by exists (S index).
Qed.

(** X11. An initial search key is always the truthy default of a search
    element of the list, whether that element is switched off or not;
    elements of other kinds never contribute one. *)
Theorem initial_key_comes_from_a_search_element (elements : list DripTableGenericRenderElement) v :
  initialSearchKey elements = Some v →
  Js.truthy (Some v) = true
  ∧ ∃ index item c, elements !! index = Some item
                    ∧ variant item = Search c
                    ∧ searchKeyDefaultValue c = Some v.
Proof.
  rewrite initialSearchKey_eq.
  destruct (Js.find _ _) as [x|] eqn:Hfind; [|done]. simpl. intros ->.
  apply find_Some in Hfind as [Htruthy [index Hi]]. split; [done|].
  rewrite list_lookup_fmap in Hi.
  destruct (elements !! index) as [item|] eqn:Hitem; [|done].
  injection Hi as Hd. unfold defaultSearchKeyOf in Hd.
  destruct (variant item) as [| | |c| | |] eqn:Hvar;
    try (injection Hd as <-; discriminate).
  by exists index, item, c.
Qed.

Lemma initial_key_comes_from_a_search_element_witness :
  Js.truthy (Some (Js.KNum 2)) = true
  ∧ ∃ index item c, schemas Scenario.propsTwoSelectors !! index = Some item
                    ∧ variant item = Search c
                    ∧ searchKeyDefaultValue c = Some (Js.KNum 2).
Proof.
  exact (initial_key_comes_from_a_search_element (schemas Scenario.propsTwoSelectors)
           (Js.KNum 2) eq_refl).
Defined.

Lemma step_cells s st s' calls :
  step s st = Some (s', calls) →
  ((∀ index value, st ≠ Fire (SelectChange index value)) →
   searchKey (hooks (world s')) = searchKey (hooks (world s)))
  ∧ ((∀ index text, st ≠ Fire (InputChange index text)) →
     searchStr (hooks (world s')) = searchStr (hooks (world s)))
  ∧ ((∀ index v, st ≠ Fire (DropdownVisibleChange index v)) →
     displayColumnVisible (hooks (world s')) = displayColumnVisible (hooks (world s))).
Proof.
  destruct st as [p'|ev].
  - by intros [= <- <-].
  - intros (w & Hh & _ & _ & -> & -> & ->)%step_fire.
    destruct ev as [i v|i t|i v|i sp|i e|i k|i v].
    6: { apply handle_menu_click in Hh as (_ & -> & _). done. }
    all: unfold handle in Hh; destruct (contentAt _ _ i) as [[]|]; try done.
    + destruct (search_select _); [|done]. injection Hh as <- <-.
      split; [|done]. intros Hne. by destruct (Hne i v).
    + injection Hh as <- <-. split; [done|]. split; [|done].
      intros Hne. by destruct (Hne i t).
    + by injection Hh as <- <-.
    + by injection Hh as <- <-.
    + by injection Hh as <- <-.
    + injection Hh as <- <-. split; [done|]. split; [done|].
      intros Hne. by destruct (Hne i v).
Qed.

(** X12. The default search key is read once, at mount. Renders with other
    properties, other element lists and other defaults among them, do not
    reset the selected key: as long as no select changes it, the key is the
    one computed from the properties of the mount. The same holds for the
    search text, which only an input change replaces. *)
Theorem search_cells_survive_renders p ts steps s' calls :
  run (start p ts) steps = Some (s', calls) →
  ((∀ index value, Fire (SelectChange index value) ∉ steps) →
   searchKey (hooks (world s')) = initialSearchKey (schemas p))
  ∧ ((∀ index text, Fire (InputChange index text) ∉ steps) →
     searchStr (hooks (world s')) = "").
Proof.
  assert (∀ steps s s' calls, run s steps = Some (s', calls) →
    ((∀ index value, Fire (SelectChange index value) ∉ steps) →
     searchKey (hooks (world s')) = searchKey (hooks (world s)))
    ∧ ((∀ index text, Fire (InputChange index text) ∉ steps) →
       searchStr (hooks (world s')) = searchStr (hooks (world s)))) as Hgen.
  { clear. intros steps. induction steps as [|st steps IH]; intros s s' calls.
    - by intros [= <- <-].
    - rewrite run_cons.
      destruct (step s st) as [[s1 calls1]|] eqn:Hstep; simpl; [|done].
      destruct (run s1 steps) as [[s2 calls2]|] eqn:Hrun; simpl; [|done].
      intros [= <- <-].
      destruct (IH _ _ _ Hrun) as [Hkey Hstr].
      apply step_cells in Hstep as (Hkey1 & Hstr1 & _).
      split; intros Hno.
      + rewrite Hkey, Hkey1; [done| |].
        * intros i v ->. apply (Hno i v). left.
        * intros i v Hin. apply (Hno i v). by right.
      + rewrite Hstr, Hstr1; [done| |].
        * intros i t ->. apply (Hno i t). left.
        * intros i t Hin. apply (Hno i t). by right. }
  intros Hrun. by apply Hgen in Hrun.
Qed.

Lemma search_cells_survive_renders_witness :
  searchKey (rerender Scenario.propsSearches (mount Scenario.propsB))
  = initialSearchKey (schemas Scenario.propsB)
  ∧ initialSearchKey (schemas Scenario.propsSearches) = Some (Js.KNum 2)
  ∧ initialSearchKey (schemas Scenario.propsB) = None.
Proof.
  split; [|split; reflexivity].
  refine (proj1 (search_cells_survive_renders Scenario.propsB Scenario.stateA
                   [Render Scenario.propsSearches]
                   {| current := Scenario.propsSearches;
                      world := {| tableState := Scenario.stateA;
                                  hooks := rerender Scenario.propsSearches
                                             (mount Scenario.propsB) |} |}
                   [] eq_refl) _).
  intros index value [H|H]%elem_of_cons; [discriminate|by apply elem_of_nil in H].
Defined.

End Callbacks.

(** ** What the elements show *)

Section Views.

Implicit Types (p : GenericRenderProps) (w : World) (ts : IDripTableContext) (h : Hooks).

Lemma render_selector p ts h item c :
  variant item = DisplayColumnSelector c →
  hidableColumns (schema (tableProps p)) ≠ [] →
  ∃ v, renderColumnContent p ts h item = Some (ColumnSelector v)
       ∧ dropdown_visible v = displayColumnVisible h
       ∧ dropdown_buttonText v
         = match selectorButtonText c with
           | Some t => if bool_decide (t = "") then "展示列" else t
           | None => "展示列"
           end.
Proof.
  intros Hvar Hne. unfold renderColumnContent. rewrite Hvar.
  rewrite bool_decide_eq_false_2 by (by destruct (hidableColumns _)).
  by eexists.
Qed.

Lemma render_selector_visible p ts h item v :
  renderColumnContent p ts h item = Some (ColumnSelector v) →
  dropdown_visible v = displayColumnVisible h.
Proof.
  intros Hr. destruct (render_selector_inv _ _ _ _ _ Hr) as ((c & Hvar) & Hne & _).
  destruct (render_selector p ts h item c Hvar Hne) as (v' & Hv' & Hvis & _).
  rewrite Hr in Hv'. by injection Hv' as <-.
Qed.

(** X13. The toolbar has one open flag for all its display-column
    selectors: every rendered selector shows it, so opening or closing one
    opens or closes every other, and a click on a menu entry leaves the
    menu as open as it was. *)
Theorem selectors_open_together p w i j vj :
  contentAt p w j = Some (ColumnSelector vj) →
  dropdown_visible vj = displayColumnVisible (hooks w)
  ∧ (∀ v w' calls,
       handle p w (DropdownVisibleChange i v) = Some (w', calls) →
       ∃ vj', contentAt p w' j = Some (ColumnSelector vj') ∧ dropdown_visible vj' = v)
  ∧ (∀ e_key w' calls,
       handle p w (MenuClick i e_key) = Some (w', calls) →
       ∃ vj', contentAt p w' j = Some (ColumnSelector vj')
              ∧ dropdown_visible vj' = dropdown_visible vj).
Proof.
  intros Hj. apply contentAt_element in Hj as (item & Hitem & Hvis & Hr).
  pose proof (render_selector_visible _ _ _ _ _ Hr) as Hshow.
  destruct (render_selector_inv _ _ _ _ _ Hr) as ((c & Hvar) & Hne & _).
  split; [done|]. split.
  - intros v w' calls Hh. unfold handle in Hh.
    destruct (contentAt p w i) as [[]|]; try done. injection Hh as <- <-.
    rewrite (contentAt_visible _ _ j item) by done.
    destruct (render_selector p (tableState w) (setDisplayColumnVisible v (hooks w))
                item c Hvar Hne) as (v' & Hv' & Hvis' & _).
    by exists v'.
  - intros e_key w' calls Hh. apply handle_menu_click in Hh as (_ & -> & _).
    rewrite (contentAt_visible _ _ j item) by done. simpl.
    destruct (render_selector p (clickMenu (tableProps p) (tableInfo (hooks w)) e_key
                                   (tableState w)) (hooks w) item c Hvar Hne)
      as (v' & Hv' & Hvis' & _).
    exists v'. split; [done|]. by rewrite Hvis', Hshow.
Qed.

Lemma selectors_open_together_witness :
  ∃ w' v, handle Scenario.propsTwoSelectors Scenario.worldTwoSelectors
            (DropdownVisibleChange 0 true) = Some (w', [])
          ∧ contentAt Scenario.propsTwoSelectors w' 2 = Some (ColumnSelector v)
          ∧ dropdown_visible v = true.
Proof.
  destruct (contentAt Scenario.propsTwoSelectors Scenario.worldTwoSelectors 2)
    as [[| | | | | |v0]|] eqn:Hc0; try (vm_compute in Hc0; discriminate).
  destruct (selectors_open_together Scenario.propsTwoSelectors Scenario.worldTwoSelectors
              0 2 v0 Hc0) as (_ & Hopen & _).
  destruct (Hopen true
              (withHooks Scenario.worldTwoSelectors
                 (setDisplayColumnVisible true (mount Scenario.propsTwoSelectors)))
              [] eq_refl) as (v & Hv & Hvis).
  eexists _, v. split; [reflexivity|]. by split.
Defined.

(** X14. A search element with search keys, an empty list included, shows
    a select with one option per key, in the order of the keys, each keyed
    by its position and carrying the value and the label of its key; the
    select shows the shared selected key and not the default of the
    element. Without search keys there is no select. *)
Theorem select_lists_the_search_keys p ts h item c :
  variant item = Search c →
  ∃ v, renderColumnContent p ts h item = Some (SearchBox v)
       ∧ match searchKeys c with
         | None => search_select v = None
         | Some keys =>
             ∃ sel, search_select v = Some sel
                    ∧ select_value sel = searchKey h
                    ∧ select_defaultValue sel = searchKeyDefaultValue c
                    ∧ List.length (select_options sel) = List.length keys
                    ∧ ∀ i k, keys !! i = Some k →
                        select_options sel !! i
                        = Some {| option_key := i; option_value := value k;
                                  option_label := label k |}
         end.
Proof.
  intros Hvar. unfold renderColumnContent. rewrite Hvar. eexists. split; [done|].
  simpl. destruct (searchKeys c) as [keys|]; [|done]. simpl.
  eexists. split; [done|]. simpl. split; [done|]. split; [done|].
  split; [apply length_imap|].
  intros i k Hk. by rewrite list_lookup_imap, Hk.
Qed.

Lemma select_lists_the_search_keys_witness :
  ∃ v, renderColumnContent Scenario.propsB Scenario.stateA (mount Scenario.propsB)
         (Scenario.searchWith (Some Scenario.keysAB) None) = Some (SearchBox v)
       ∧ ∃ sel, search_select v = Some sel
                ∧ select_value sel = None
                ∧ select_defaultValue sel = None
                ∧ List.length (select_options sel) = 2%nat
                ∧ ∀ i k, Scenario.keysAB !! i = Some k →
                    select_options sel !! i
                    = Some {| option_key := i; option_value := value k;
                              option_label := label k |}.
Proof.
  exact (select_lists_the_search_keys Scenario.propsB Scenario.stateA (mount Scenario.propsB)
           (Scenario.searchWith (Some Scenario.keysAB) None) _ eq_refl).
Defined.

Lemma classnames_pair base custom :
  base ≠ "" → Js.classnames [Some base; custom] = withCustomClass base custom.
Proof.
  intros Hbase. unfold withCustomClass. simpl.
  rewrite bool_decide_eq_false_2 by done.
  destruct custom as [c|]; [|done]. case_bool_decide; [done|].
  destruct c; done.
Qed.

(** X15. A custom class never replaces the class of the component. The
    wrapper of a search element, the slot function and the insert button
    get the class of the component first, followed, after one space, by
    the custom class when a non-empty one is given; a slot takes its
    custom class from the [className] of its properties, and only when
    that is a string. *)
Theorem custom_class_is_appended p ts h b :
  (∀ c, ∃ v, renderColumnContent p ts h {| basic := b; variant := Search c |}
             = Some (SearchBox v)
           ∧ search_className v
             = withCustomClass "generic-render-search-element" (wrapperClassName c))
  ∧ (∀ c, ∃ v, renderColumnContent p ts h {| basic := b; variant := InsertButton c |}
               = Some (InsertButtonElement v)
             ∧ button_className v
               = withCustomClass "generic-render-insert-button-element"
                   (insertButtonClassName c))
  ∧ (∀ slot props v,
       renderColumnContent p ts h {| basic := b; variant := Slot slot props |}
       = Some (SlotElement v) →
       slot_className v
       = withCustomClass "generic-render-slot-element"
           (match props ≫= (λ m, m !! "className") with
            | Some (PString s) => Some s
            | _ => None
            end)).
Proof.
  split; [|split].
  - intros c. eexists. split; [done|]. cbn [search_className].
    by apply (classnames_pair "generic-render-search-element").
  - intros c. eexists. split; [done|]. cbn [button_className].
    by apply (classnames_pair "generic-render-insert-button-element").
  - intros slot props v. unfold renderColumnContent. cbn [variant].
    destruct (resolveSlot _ _); [|done]. intros [= <-]. cbn [slot_className].
    unfold styles, withCustomClass.
    destruct (props ≫= _) as [[s0| | |]|]; try done.
    case_bool_decide; [done|]. by destruct s0.
Qed.

(** X16. The button of a selector always has a label and the search button
    never has an empty one: a missing or empty [selectorButtonText] gives
    the label [展示列], a missing or empty [searchButtonText] gives the
    plain search button. *)
Theorem empty_texts_fall_back p ts h item :
  (∀ v, renderColumnContent p ts h item = Some (ColumnSelector v) →
        dropdown_buttonText v ≠ ""
        ∧ ∀ c, variant item = DisplayColumnSelector c →
            (selectorButtonText c = None ∨ selectorButtonText c = Some "") →
            dropdown_buttonText v = "展示列")
  ∧ (∀ v, renderColumnContent p ts h item = Some (SearchBox v) →
          input_enterButton (search_input v) ≠ EnterButtonText ""
          ∧ ∀ c, variant item = Search c →
              (searchButtonText c = None ∨ searchButtonText c = Some "") →
              input_enterButton (search_input v) = EnterButtonTrue).
Proof.
  split.
  - intros v Hr. destruct (render_selector_inv _ _ _ _ _ Hr) as ((c & Hvar) & Hne & _).
    destruct (render_selector p ts h item c Hvar Hne) as (v' & Hv' & _ & Htext).
    rewrite Hr in Hv'. injection Hv' as <-. rewrite Htext. split.
    + destruct (selectorButtonText c) as [t|]; [|done]. by case_bool_decide.
    + intros c' Hvar' [Hc|Hc]; rewrite Hvar in Hvar'; injection Hvar' as <-;
        by rewrite Hc.
  - intros v. unfold renderColumnContent.
    destruct (variant item) as [| | |c|slot props| |c]; try done.
    + intros [= <-]. simpl. split.
      * destruct (searchButtonText c) as [t|]; [|done]. case_bool_decide; congruence.
      * intros c' [= <-] [Hc|Hc]; by rewrite Hc.
    + destruct (resolveSlot _ _); done.
    + case_bool_decide; done.
Qed.

(** X17. The menu of a selector follows the schema: its entries are the
    hidable columns in the order of the schema, so there are never more
    entries than columns, and the menu is the same whatever the display
    list holds. *)
Theorem menu_follows_schema_order p w index v :
  contentAt p w index = Some (ColumnSelector v) →
  item_key <$> dropdown_overlay v `sublist_of` columnKeys (schema (tableProps p))
  ∧ (List.length (dropdown_overlay v) ≤ List.length (columns (schema (tableProps p))))%nat
  ∧ ∀ ts', ∃ v', contentAt p {| tableState := ts'; hooks := hooks w |} index
                 = Some (ColumnSelector v')
                 ∧ item_key <$> dropdown_overlay v' = item_key <$> dropdown_overlay v
                 ∧ item_title <$> dropdown_overlay v' = item_title <$> dropdown_overlay v.
Proof.
  intros Hc. apply contentAt_element in Hc as (item & Hitem & Hvis & Hr).
  destruct (render_selector_inv _ _ _ _ _ Hr) as ((c & Hvar) & Hne & Hkeys).
  split; [|split].
  - rewrite Hkeys. unfold columnKeys, hidableColumns.
    apply fmap_sublist, sublist_filter.
  - rewrite <-(length_fmap item_key), Hkeys, length_fmap. apply length_filter.
  - intros ts'. rewrite (contentAt_visible _ _ index item) by done. simpl.
    revert Hr. unfold renderColumnContent. rewrite Hvar.
    case_bool_decide; [done|]. intros [= <-]. eexists. split; [done|]. simpl.
    by rewrite <-!list_fmap_compose.
Qed.

Lemma menu_follows_schema_order_witness :
  ∃ v, contentAt Scenario.propsA Scenario.worldA 0 = Some (ColumnSelector v)
       ∧ item_key <$> dropdown_overlay v `sublist_of` ["mock_1"; "mock_2"]
       ∧ (List.length (dropdown_overlay v) ≤ 2)%nat.
Proof.
  destruct (contentAt Scenario.propsA Scenario.worldA 0)
    as [[| | | | | |v]|] eqn:Hc; try (vm_compute in Hc; discriminate).
  exists v. split; [done|].
  destruct (menu_follows_schema_order Scenario.propsA Scenario.worldA 0 v Hc)
    as (Hsub & Hlen & _).
  by split.
Defined.

End Views.
